(** * Character field generation: prompt assembly of [src/generate.ts]

    A shallow embedding of [runCharacterFieldGeneration] and of the helpers
    it is built from, followed by the properties of the prompt assembler.

    Conventions of the embedding:
    - a JavaScript string is a [string]: a sequence of code units, here the
      ones below 256; the string operations work on the list of its
      characters;
    - a JavaScript object used as a dictionary ([promptSettings],
      [session.fields], [session.draftFields], [entriesGroupByWorldName],
      [CONNECT_API_MAP]) is a [gmap string _] of its own properties; a
      read [obj[key]] also sees the names inherited from
      [Object.prototype], and a write of [__proto__] adds no property; the
      order of the properties is not modelled;
    - a value that may be [undefined] is an [option];
    - [throw] and the two awaited host calls ([buildPrompt], [sendRequest])
      live in a small trace-and-error monad. *)

From Stdlib Require Import Ascii ZArith.
From stdpp Require Import gmap strings list fin_maps.

Local Open Scope Z_scope.
Local Open Scope stdpp_scope.

(** ** Strings as lists of characters *)

Module Str.

Abbreviation chars := String.list_ascii_of_string.
Abbreviation of_chars := String.string_of_list_ascii.

Definition startsWithL (pat s : list ascii) : bool :=
  bool_decide (pat `prefix_of` s).

(** [String.prototype.includes] on character lists. *)
Fixpoint includesL (q s : list ascii) : bool :=
  startsWithL q s ||
  match s with
  | [] => false
  | _ :: s' => includesL q s'
  end.

(** The scan of [String.prototype.replaceAll] for a non-empty search string:
    matches are found left to right and do not overlap; [skip] counts the
    characters of the current match that are still to be passed over. *)
Fixpoint replaceAll_go (pat rep : list ascii) (skip : nat) (s : list ascii)
  : list ascii :=
  match s with
  | [] => []
  | c :: s' =>
      match skip with
      | S k => replaceAll_go pat rep k s'
      | O =>
          if startsWithL pat s
          then rep ++ replaceAll_go pat rep (length pat - 1) s'
          else c :: replaceAll_go pat rep 0 s'
      end
  end.

(** [s.replaceAll(pat, rep)] with string arguments. The empty search string
    matches between all characters. The replacement text is taken
    literally: no call site of the module passes a [$] pattern. *)
Definition replaceAllL (pat rep s : list ascii) : list ascii :=
  match pat with
  | [] => rep ++ flat_map (fun c => c :: rep) s
  | _ :: _ => replaceAll_go pat rep 0 s
  end.

Definition replaceAll (s pat rep : string) : string :=
  of_chars (replaceAllL (chars pat) (chars rep) (chars s)).

Definition includes (s q : string) : bool := includesL (chars q) (chars s).

(** White space and line terminators, as far as they are below 256. *)
Definition isWhiteSpace (c : ascii) : bool :=
  let n := nat_of_ascii c in
  bool_decide (n ∈ [9; 10; 11; 12; 13; 32; 160]%nat).

Fixpoint trimStartL (s : list ascii) : list ascii :=
  match s with
  | c :: s' => if isWhiteSpace c then trimStartL s' else s
  | [] => []
  end.

Definition trimL (s : list ascii) : list ascii :=
  rev (trimStartL (rev (trimStartL s))).

Definition trim (s : string) : string := of_chars (trimL (chars s)).

(** Two patterns laid over each other agree when one is a prefix of the
    other. *)
Definition agree (x y : list ascii) : bool :=
  startsWithL x y || startsWithL y x.

(** [no_overlap pat q]: no occurrence of [pat] in a text can share a
    position with an occurrence of [q]. *)
Definition no_overlap (pat q : list ascii) : bool :=
  forallb (fun d => negb (agree (drop d pat) q)) (seq 0 (length pat)) &&
  forallb (fun d => negb (agree pat (drop d q))) (seq 0 (length q)).

(** [parseInt(s)] without a radix: leading white space is dropped, a sign is
    read, [0x] or [0X] selects radix 16, and the longest run of digits that
    follows is the value; what comes after it is ignored. [None] is [NaN].
    The value here is the integer that the digits denote. The number that
    JavaScript returns is this integer rounded to a double: the same
    integer up to 2^53, and beyond every array length above it, so that
    the array lookup of line 116 is the same for both. *)
Definition digitValue (radix : Z) (c : ascii) : option Z :=
  let n := Z.of_nat (nat_of_ascii c) in
  let v :=
    if (48 <=? n) && (n <=? 57) then Some (n - 48)
    else if (97 <=? n) && (n <=? 122) then Some (n - 87)
    else if (65 <=? n) && (n <=? 90) then Some (n - 55)
    else None in
  match v with
  | Some d => if d <? radix then Some d else None
  | None => None
  end.

Fixpoint parseDigits (radix : Z) (acc : option Z) (s : list ascii)
  : option Z :=
  match s with
  | c :: s' =>
      match digitValue radix c with
      | Some d =>
          parseDigits radix
            (Some (match acc with Some a => a * radix + d | None => d end)) s'
      | None => acc
      end
  | [] => acc
  end.

Definition parseIntL (s : list ascii) : option Z :=
  let s := trimStartL s in
  let '(sign, s) :=
    match s with
    | "-"%char :: s' => (-1, s')
    | "+"%char :: s' => (1, s')
    | _ => (1, s)
    end in
  let '(radix, s) :=
    match s with
    | "0"%char :: "x"%char :: s' => (16, s')
    | "0"%char :: "X"%char :: s' => (16, s')
    | _ => (10, s)
    end in
  match parseDigits radix None s with
  | Some n => Some (sign * n)
  | None => None
  end.

Definition parseInt (s : string) : option Z := parseIntL (chars s).

(** The string form of an integer: an optional minus sign, then decimal
    digits and nothing else. [decimalValue] is the number they denote. *)
Definition isDecimalDigit (c : ascii) : bool :=
  let n := Z.of_nat (nat_of_ascii c) in (48 <=? n) && (n <=? 57).

Definition isDigits (s : list ascii) : bool :=
  match s with
  | [] => false
  | _ :: _ => forallb isDecimalDigit s
  end.

Definition isIntegerString (s : string) : bool :=
  match chars s with
  | "-"%char :: ds => isDigits ds
  | ds => isDigits ds
  end.

Definition decimalValue (s : list ascii) : Z :=
  foldl (fun acc c => acc * 10 + (Z.of_nat (nat_of_ascii c) - 48)) 0 s.

(** A string is truthy when it is not empty. *)
Definition truthy (s : string) : bool :=
  match s with
  | EmptyString => false
  | String _ _ => true
  end.

Definition dquote : string := String "034"%char EmptyString.

End Str.

(** ** Exceptions, host calls and their trace *)

(** The exceptions of the module: [new Error(message)], and the [TypeError]
    of the engine when [property] is read from [undefined]. *)
Inductive Exn : Type :=
| Error (message : string)
| TypeError (property : string).

Record Message : Type := { role : string; content : string }.

(** Lines 15 to 31. *)
Definition CHARACTER_FIELDS : list string :=
  ["name"; "description"; "personality"; "scenario"; "first_mes";
   "mes_example"].

Definition CHARACTER_LABELS : gmap string string :=
  {[ "name" := "Name";
     "description" := "Description";
     "personality" := "Personality";
     "scenario" := "Scenario";
     "first_mes" := "First Message";
     "mes_example" := "Example Dialogue" ]}.

Record CharacterField : Type :=
  { prompt : option string; value : string; label : string }.

Record Session : Type :=
  { selectedCharacterIndexes : list string;
    selectedWorldNames : list string;
    fields : gmap string CharacterField;
    draftFields : gmap string CharacterField }.

Record Profile : Type :=
  { id : string; api : option string; name : string }.

Record ConnectionManager : Type := { profiles : option (list Profile) }.

Record ApiMapEntry : Type := { selected : option string }.

(** An entry of [promptSettings]; only [content] is read. *)
Record PromptSetting : Type := { prompt_content : string }.

Record MainContext : Type := { promptName : string; mc_role : string }.

Inductive OutputFormat : Type := xml | json | none.

Record ExtractedData : Type := { response_content : string }.

Record AllFields : Type :=
  { core : gmap string string; draft : gmap string string }.

Definition userPlaceHolder : string := "[[[crec_veryUniqueUserPlaceHolder]]]".
Definition charPlaceHolder : string := "[[[crec_veryUniqueCharPlaceHolder]]]".

(** Lines 180 to 184: protect the literal tokens, run the host substitution,
    restore the tokens. *)
Definition substituteProtected (substituteParams : string -> string)
  (content : string) : string :=
  let content := Str.replaceAll content "{{user}}" userPlaceHolder in
  let content := Str.replaceAll content "{{char}}" charPlaceHolder in
  let content := substituteParams content in
  let content := Str.replaceAll content userPlaceHolder "{{user}}" in
  Str.replaceAll content charPlaceHolder "{{char}}".

(** A substitution that replaces every [{{user}}] and every [{{char}}] by a
    persona name, whatever surrounds them. *)
Definition stubSubstituteParams (userName charName : string) (text : string)
  : string :=
  Str.replaceAll (Str.replaceAll text "{{user}}" userName) "{{char}}" charName.

(** ** Reading and writing a property of a plain object *)

(** The names that a plain object inherits from [Object.prototype]. *)
Definition objectPrototypeNames : list string :=
  ["constructor"; "hasOwnProperty"; "isPrototypeOf";
   "propertyIsEnumerable"; "toLocaleString"; "toString"; "valueOf";
   "__proto__"; "__defineGetter__"; "__defineSetter__";
   "__lookupGetter__"; "__lookupSetter__"].

(** [obj[key]]: the own property; else what [Object.prototype] has under
    that name, which is a function (the prototype itself for [__proto__]):
    truthy, and without any of the properties [content], [selected] and
    [prompt] that the module reads from it; else [undefined]. *)
Inductive Property (V : Type) : Type :=
| Own (v : V)
| Inherited
| Absent.

Arguments Own {V} v.
Arguments Inherited {V}.
Arguments Absent {V}.

Definition getProperty {V : Type} (obj : gmap string V) (key : string)
  : Property V :=
  match obj !! key with
  | Some v => Own v
  | None =>
      if bool_decide (key ∈ objectPrototypeNames) then Inherited else Absent
  end.

(** [obj[key] = v] on an object that started as [{}]: the name [__proto__]
    reaches the setter of [Object.prototype], which changes the prototype
    of [obj] and adds no property; every other name becomes an own
    property. *)
Definition setProperty {V : Type} (obj : gmap string V) (key : string)
  (v : V) : gmap string V :=
  if bool_decide (key = "__proto__") then obj else <[key := v]> obj.

(** [a?.prompt] and [a ?? b]. An inherited name has no [prompt], so that
    [obj[key]?.prompt] is the prompt of the own property or [undefined]. *)
Definition promptOf (f : option CharacterField) : option string :=
  match f with
  | Some f => prompt f
  | None => None
  end.

Definition nullish {A : Type} (a b : option A) : option A :=
  match a with
  | Some x => Some x
  | None => b
  end.

(** Lines 101 and 102. *)
Definition fieldSpecificInstructions (session : Session) (targetField : string)
  : option string :=
  nullish (promptOf (draftFields session !! targetField))
          (promptOf (fields session !! targetField)).

(** [Object.fromEntries]: a later pair overwrites an earlier one. Every
    pair becomes an own property, one under [__proto__] too. *)
Definition fromEntries {V : Type} (l : list (string * V)) : gmap string V :=
  foldl (fun acc kv => <[kv.1 := kv.2]> acc) ∅ l.

(** Lines 144 to 149: the values of the fields under their labels. The
    fields are taken in the order of [map_to_list], not in the order of
    [Object.entries]: which of two fields with the same label gives the
    value is not modelled. *)
Definition labelledValues (fs : gmap string CharacterField)
  : gmap string string :=
  fromEntries (map (fun kv => (label kv.2, value kv.2)) (map_to_list fs)).

(** A [throw] or a returned value. *)
Definition Result (A : Type) : Type := Exn + A.

(** The [for ... of] loop over a list, with the array it pushes to. *)
Fixpoint forOf {A B : Type} (body : B -> A -> Result B) (l : list A) (acc : B)
  : Result B :=
  match l with
  | [] => inr acc
  | x :: l' =>
      match body acc x with
      | inl e => inl e
      | inr acc' => forOf body l' acc'
      end
  end.

(** ** The generation request and the host *)

Section Generation.

(** Types of the host library that the module passes through: a character
    card, a lorebook entry with its [disable] flag, the options of the base
    prompt builder, and whatever a message of the base builder carries
    besides its role and content. *)
Context {Character WIEntry BuildPromptOptions Extra : Type}.
Context (disable : WIEntry -> bool).

Record BaseMessage : Type :=
  { base_role : string; base_content : string; base_extra : Extra }.

Record RunCharacterFieldGenerationParams : Type :=
  { profileId : string;
    userPrompt : string;
    buildPromptOptions : BuildPromptOptions;
    session : Session;
    allCharacters : list Character;
    entriesGroupByWorldName : gmap string (list WIEntry);
    promptSettings : gmap string PromptSetting;
    formatDescription : string;
    mainContextList : list MainContext;
    maxResponseToken : Z;
    targetField : string;
    outputFormat : OutputFormat }.

Record TemplateData : Type :=
  { td_userInstructions : string;
    td_fieldSpecificInstructions : option string;
    td_targetField : string;
    td_activeFormatInstructions : string;
    td_char : string;
    td_user : string;
    td_characters : list Character;
    td_lorebooks : gmap string (list WIEntry);
    td_fields : AllFields }.

(** What the module reaches through [globalContext] and its imports.
    [render t d] is [Handlebars.compile(t, {noEscape: true})(d)], and
    [compileUndefined] is the exception that [Handlebars.compile] raises
    when its template is [undefined]. *)
Record Host : Type :=
  { connectionManager : option ConnectionManager;
    CONNECT_API_MAP : gmap string ApiMapEntry;
    substituteParams : string -> string;
    sendRequest : string -> list Message -> Z -> Result ExtractedData;
    buildPrompt : string -> BuildPromptOptions -> Result (list BaseMessage);
    render : string -> TemplateData -> Result string;
    compileUndefined : Exn;
    parseResponse : string -> OutputFormat -> Result string;
    name1 : option string;
    name2 : option string }.

(** The awaited calls, in the order they are made. *)
Inductive Event : Type :=
| CallBuildPrompt (api : string) (options : BuildPromptOptions)
| CallSendRequest (profileId : string) (messages : list Message)
    (maxResponseToken : Z).

Definition M (A : Type) : Type := (list Event * Result A)%type.

Definition ret {A : Type} (x : A) : M A := ([], inr x).
Definition throw {A : Type} (e : Exn) : M A := ([], inl e).
Definition lift {A : Type} (r : Result A) : M A := ([], r).
Definition await {A : Type} (ev : Event) (r : Result A) : M A := ([ev], r).

Definition bind {A B : Type} (m : M A) (k : A -> M B) : M B :=
  match m with
  | (t, inl e) => (t, inl e)
  | (t, inr x) => let '(t', r) := k x in (t ++ t', r)
  end.

Notation "'let*' x ':=' m 'in' k" := (bind m (fun x => k))
  (at level 10, x name, m at level 100, k at level 200).

(** The message lists handed to the request service. *)
Definition sentMessages (t : list Event) : list (list Message) :=
  omap (fun ev =>
          match ev with
          | CallSendRequest _ messages _ => Some messages
          | CallBuildPrompt _ _ => None
          end) t.

Variable host : Host.

(** Line 86. *)
Definition findProfile (profileId : string) : option Profile :=
  match connectionManager host with
  | Some cm =>
      match profiles cm with
      | Some ps => List.find (fun p => bool_decide (id p = profileId)) ps
      | None => None
      end
  | None => None
  end.

(** Line 93: reading [selected] from an [api] that the map does not know
    raises; an [api] that names a property of [Object.prototype] finds a
    function, whose [selected] is [undefined]. *)
Definition selectedApiOf (profile : Profile) : Result (option string) :=
  match api profile with
  | Some a =>
      if Str.truthy a then
        match getProperty (CONNECT_API_MAP host) a with
        | Own entry => inr (selected entry)
        | Inherited => inr None
        | Absent => inl (TypeError "selected")
        end
      else inr None
  | None => inr None
  end.

(** Lines 113 to 122. *)
Definition characterAt (allCharacters : list Character) (charIndex : string)
  : option Character :=
  match Str.parseInt charIndex with
  | Some n => if 0 <=? n then allCharacters !! Z.to_nat n else None
  | None => None
  end.

Definition charactersData (allCharacters : list Character)
  (selectedCharacterIndexes : list string) : list Character :=
  foldl (fun acc charIndex =>
           match characterAt allCharacters charIndex with
           | Some char => acc ++ [char]
           | None => acc
           end) [] selectedCharacterIndexes.

(** Lines 127 to 139. *)
Definition enabled (entry : WIEntry) : bool := negb (disable entry).

Definition worldIsUsed (selectedWorldNames : list string)
  (kv : string * list WIEntry) : bool :=
  (0 <? Z.of_nat (length kv.2)) &&
  bool_decide (kv.1 ∈ selectedWorldNames) &&
  existsb enabled kv.2.

Definition lorebooksData (entriesGroupByWorldName : gmap string (list WIEntry))
  (selectedWorldNames : list string) : gmap string (list WIEntry) :=
  foldl (fun acc kv => setProperty acc kv.1 (List.filter enabled kv.2)) ∅
    (List.filter (worldIsUsed selectedWorldNames)
       (map_to_list entriesGroupByWorldName)).

Definition templateDataOf (p : RunCharacterFieldGenerationParams)
  (processedUserPrompt : string) : TemplateData :=
  {| td_userInstructions := processedUserPrompt;
     td_fieldSpecificInstructions :=
       fieldSpecificInstructions (session p) (targetField p);
     td_targetField := targetField p;
     td_activeFormatInstructions := formatDescription p;
     td_char := default "{{char}}" (name1 host);
     td_user := default "{{user}}" (name2 host);
     td_characters :=
       charactersData (allCharacters p)
         (selectedCharacterIndexes (session p));
     td_lorebooks :=
       lorebooksData (entriesGroupByWorldName p)
         (selectedWorldNames (session p));
     td_fields :=
       {| core := labelledValues (fields (session p));
          draft := labelledValues (draftFields (session p)) |} |}.

(** Lines 165 to 168. *)
Definition chatHistoryOf (chatMessages : list BaseMessage) : list Message :=
  map (fun message =>
         {| role := base_role message; content := base_content message |})
    chatMessages.

(** Lines 163 to 187: the body of the loop, on the array [messages]. A
    name inherited from [Object.prototype] passes the test of line 173,
    and its [content] is [undefined]. *)
Definition mainContextStep (templateData : TemplateData)
  (chatMessages : list BaseMessage)
  (promptSettings : gmap string PromptSetting)
  (messages : list Message) (mainContext : MainContext)
  : Result (list Message) :=
  if bool_decide (promptName mainContext = "chatHistory") then
    inr (messages ++ chatHistoryOf chatMessages)
  else
    match getProperty promptSettings (promptName mainContext) with
    | Absent => inr messages
    | Inherited => inl (compileUndefined host)
    | Own prompt =>
        match render host (prompt_content prompt) templateData with
        | inl e => inl e
        | inr rendered =>
            let message :=
              {| role := mc_role mainContext;
                 content :=
                   substituteProtected (substituteParams host) rendered |} in
            if Str.truthy (content message)
            then inr (messages ++ [message])
            else inr messages
        end
    end.

Definition assembleMessages (templateData : TemplateData)
  (chatMessages : list BaseMessage)
  (promptSettings : gmap string PromptSetting)
  (mainContextList : list MainContext) : Result (list Message) :=
  forOf (mainContextStep templateData chatMessages promptSettings)
    mainContextList [].

Definition notFoundMessage (profileId : string) : string :=
  "Connection profile with ID " +:+ Str.dquote +:+ profileId +:+
  Str.dquote +:+ " not found.".

Definition noApiMessage (profileName : string) : string :=
  "Could not determine API for profile " +:+ Str.dquote +:+ profileName +:+
  Str.dquote +:+ ".".

(** Lines 69 to 205. *)
Definition runCharacterFieldGeneration (p : RunCharacterFieldGenerationParams)
  : M string :=
  if negb (Str.truthy (profileId p)) then
    throw (Error "No connection profile selected.")
  else
    match findProfile (profileId p) with
    | None => throw (Error (notFoundMessage (profileId p)))
    | Some profile =>
        let processedUserPrompt :=
          substituteParams host (Str.trim (userPrompt p)) in
        let* selectedApi := lift (selectedApiOf profile) in
        match selectedApi with
        | Some theApi =>
            if Str.truthy theApi then
              let* chatMessages :=
                await (CallBuildPrompt theApi (buildPromptOptions p))
                  (buildPrompt host theApi (buildPromptOptions p)) in
              let templateData := templateDataOf p processedUserPrompt in
              let* messages :=
                lift (assembleMessages templateData chatMessages
                        (promptSettings p) (mainContextList p)) in
              let* response :=
                await (CallSendRequest (profileId p) messages
                         (maxResponseToken p))
                  (sendRequest host (profileId p) messages
                     (maxResponseToken p)) in
              lift (parseResponse host (response_content response)
                      (outputFormat p))
            else throw (Error (noApiMessage (name profile)))
        | None => throw (Error (noApiMessage (name profile)))
        end
    end.

End Generation.

(** ** The two halves of the placeholder protection *)

(** Lines 180 and 181, and lines 183 and 184, as functions of their own:
    [substituteProtected f c] is [restorePlaceholders (f (protectPlaceholders c))]. *)
Definition protectPlaceholders (content : string) : string :=
  Str.replaceAll (Str.replaceAll content "{{user}}" userPlaceHolder)
    "{{char}}" charPlaceHolder.

Definition restorePlaceholders (content : string) : string :=
  Str.replaceAll (Str.replaceAll content userPlaceHolder "{{user}}")
    charPlaceHolder "{{char}}".

(** [border_free q]: no proper suffix of [q] is a prefix of [q], so two
    occurrences of [q] never overlap. *)
Definition border_free (q : list ascii) : bool :=
  forallb (fun d => negb (Str.agree (drop d q) q)) (seq 1 (length q - 1)).

(** ** A concrete host and concrete requests *)

Module Example.

(** A character card is its name, a lorebook entry its [disable] flag and
    its text; the builder options and the rest of a base message are left
    empty. *)
Definition WI : Type := (bool * string)%type.
Definition host_t : Type := @Host string WI unit unit.
Definition params_t : Type := @RunCharacterFieldGenerationParams string WI unit.
Definition data_t : Type := @TemplateData string WI.

Definition profileList : list Profile :=
  [ {| id := "p1"; api := Some "openai"; name := "Main" |};
    {| id := "p2"; api := Some "mystery"; name := "Odd" |};
    {| id := "p3"; api := None; name := "Bare" |};
    {| id := "p4"; api := Some "idle"; name := "Idle" |} ].

Definition baseMessages : list (@BaseMessage unit) :=
  [ {| base_role := "system"; base_content := "You are {{char}}.";
       base_extra := tt |};
    {| base_role := "user"; base_content := ""; base_extra := tt |} ].

(** Templates are rendered as they are; the substitution is the stub that
    replaces both tokens everywhere. *)
Definition host : host_t :=
  {| connectionManager := Some {| profiles := Some profileList |};
     CONNECT_API_MAP :=
       {[ "openai" := {| selected := Some "openai" |};
          "idle" := {| selected := None |} ]};
     substituteParams := stubSubstituteParams "Bob" "Alice";
     sendRequest := fun _ _ _ => inr {| response_content := "done" |};
     buildPrompt := fun _ _ => inr baseMessages;
     render := fun template _ => inr template;
     compileUndefined :=
       Error
         ("You must pass a string or Handlebars AST to Handlebars.compile. "
          +:+ "You passed undefined");
     parseResponse := fun text _ => inr text;
     name1 := None;
     name2 := None |}.

Definition prompts : gmap string PromptSetting :=
  {[ "greeting" := {| prompt_content := "Hi {{user}}, I am {{char}}." |};
     "blank" := {| prompt_content := "" |} ]}.

Definition theSession : Session :=
  {| selectedCharacterIndexes := ["1abc"; "0"; "2"; "x"];
     selectedWorldNames := ["lore"; "dark"];
     fields :=
       {[ "description" :=
            {| prompt := Some "fixed text"; value := ""; label := "Description" |} ]};
     draftFields :=
       {[ "description" :=
            {| prompt := Some "draft text"; value := ""; label := "Mood" |} ]} |}.

Definition worlds : gmap string (list WI) :=
  {[ "lore" := [(true, "off"); (false, "on")];
     "dark" := [(true, "gone")];
     "far" := [(false, "unselected")] ]}.

Definition request (profile : string) (contexts : list MainContext)
  : params_t :=
  {| profileId := profile;
     userPrompt := " a brave knight ";
     buildPromptOptions := tt;
     session := theSession;
     allCharacters := ["Ann"; "Ben"];
     entriesGroupByWorldName := worlds;
     promptSettings := prompts;
     formatDescription := "plain";
     mainContextList := contexts;
     maxResponseToken := 300;
     targetField := "description";
     outputFormat := none |}.

Definition data : data_t := templateDataOf fst host (request "p1" []) "".

Definition greeting : MainContext :=
  {| promptName := "greeting"; mc_role := "user" |}.
Definition history : MainContext :=
  {| promptName := "chatHistory"; mc_role := "assistant" |}.
Definition missing : MainContext :=
  {| promptName := "nowhere"; mc_role := "system" |}.
Definition blank : MainContext :=
  {| promptName := "blank"; mc_role := "system" |}.

End Example.

(** ** Hosts that fail, and profiles that share an id *)

Module More.

Definition failingBuilder : Example.host_t :=
  {| connectionManager := connectionManager Example.host;
     CONNECT_API_MAP := CONNECT_API_MAP Example.host;
     substituteParams := substituteParams Example.host;
     sendRequest := sendRequest Example.host;
     buildPrompt := fun _ _ => inl (Error "no chat is open");
     render := render Example.host;
     compileUndefined := compileUndefined Example.host;
     parseResponse := parseResponse Example.host;
     name1 := None;
     name2 := None |}.

(** An engine that rejects the template [{{#if}}]. *)
Definition strictEngine : Example.host_t :=
  {| connectionManager := connectionManager Example.host;
     CONNECT_API_MAP := CONNECT_API_MAP Example.host;
     substituteParams := substituteParams Example.host;
     sendRequest := sendRequest Example.host;
     buildPrompt := buildPrompt Example.host;
     render := fun template _ =>
                 if bool_decide (template = "{{#if}}")
                 then inl (Error "Parse error")
                 else inr template;
     compileUndefined := compileUndefined Example.host;
     parseResponse := parseResponse Example.host;
     name1 := None;
     name2 := None |}.

Definition refusingService : Example.host_t :=
  {| connectionManager := connectionManager Example.host;
     CONNECT_API_MAP := CONNECT_API_MAP Example.host;
     substituteParams := substituteParams Example.host;
     sendRequest := fun _ _ _ => inl (Error "rate limit");
     buildPrompt := buildPrompt Example.host;
     render := render Example.host;
     compileUndefined := compileUndefined Example.host;
     parseResponse := parseResponse Example.host;
     name1 := None;
     name2 := None |}.

Definition twins : ConnectionManager :=
  {| profiles :=
       Some [ {| id := "p0"; api := None; name := "Zero" |};
              {| id := "p1"; api := Some "openai"; name := "First" |};
              {| id := "p1"; api := Some "mystery"; name := "Second" |} ] |}.

Definition twinHost : Example.host_t :=
  {| connectionManager := Some twins;
     CONNECT_API_MAP := CONNECT_API_MAP Example.host;
     substituteParams := substituteParams Example.host;
     sendRequest := sendRequest Example.host;
     buildPrompt := buildPrompt Example.host;
     render := render Example.host;
     compileUndefined := compileUndefined Example.host;
     parseResponse := parseResponse Example.host;
     name1 := None;
     name2 := None |}.

(** An entry named after a method of [Object.prototype], and a world named
    [__proto__] that is selected and enabled. *)
Definition inherited : MainContext :=
  {| promptName := "toString"; mc_role := "system" |}.

Definition protoWorlds : gmap string (list Example.WI) :=
  {[ "__proto__" := [(false, "hidden")]; "lore" := [(false, "on")] ]}.

Definition protoRequest : Example.params_t :=
  {| profileId := "p1";
     userPrompt := "";
     buildPromptOptions := tt;
     session :=
       {| selectedCharacterIndexes := [];
          selectedWorldNames := ["__proto__"; "lore"];
          fields := ∅;
          draftFields := ∅ |};
     allCharacters := [];
     entriesGroupByWorldName := protoWorlds;
     promptSettings := Example.prompts;
     formatDescription := "";
     mainContextList := [];
     maxResponseToken := 300;
     targetField := "description";
     outputFormat := none |}.

(** A profile whose [api] is the name of a method of [Object.prototype]. *)
Definition methodHost : Example.host_t :=
  {| connectionManager :=
       Some {| profiles :=
                 Some [ {| id := "p5"; api := Some "constructor";
                           name := "Method" |} ] |};
     CONNECT_API_MAP := CONNECT_API_MAP Example.host;
     substituteParams := substituteParams Example.host;
     sendRequest := sendRequest Example.host;
     buildPrompt := buildPrompt Example.host;
     render := render Example.host;
     compileUndefined := compileUndefined Example.host;
     parseResponse := parseResponse Example.host;
     name1 := None;
     name2 := None |}.

Definition broken : MainContext :=
  {| promptName := "broken"; mc_role := "system" |}.

Definition request (contexts : list MainContext) : Example.params_t :=
  {| profileId := "p1";
     userPrompt := " a brave knight ";
     buildPromptOptions := tt;
     session := Example.theSession;
     allCharacters := ["Ann"; "Ben"];
     entriesGroupByWorldName := Example.worlds;
     promptSettings :=
       <["broken" := {| prompt_content := "{{#if}}" |}]> Example.prompts;
     formatDescription := "plain";
     mainContextList := contexts;
     maxResponseToken := 300;
     targetField := "description";
     outputFormat := none |}.

End More.
(** ** Lemmas on [replaceAll] *)

Section ReplaceAll.
Import Str.
Implicit Types pat rep q s a b : list ascii.

Lemma startsWithL_true pat s : startsWithL pat s = true <-> pat `prefix_of` s.
Proof. unfold startsWithL. apply bool_decide_eq_true. Qed.

Lemma startsWithL_false pat s :
  startsWithL pat s = false <-> ¬ pat `prefix_of` s.
Proof. unfold startsWithL. apply bool_decide_eq_false. Qed.

Lemma includesL_spec q s :
  includesL q s = true <-> exists a b, s = a ++ q ++ b.
Proof.
  induction s as [|c s IH]; simpl.
  - rewrite orb_false_r, startsWithL_true. split.
    + intros [k Hk]. exists [], k. exact Hk.
    + intros (a & b & Hab). destruct a; simpl in Hab.
      * exists b. exact Hab.
      * discriminate.
  - rewrite orb_true_iff, startsWithL_true, IH. split.
    + intros [[k Hk] | (a & b & Hab)].
      * exists [], k. exact Hk.
      * exists (c :: a), b. simpl. by rewrite Hab.
    + intros (a & b & Hab). destruct a as [|c' a]; simpl in Hab.
      * left. exists b. exact Hab.
      * right. exists a, b. congruence.
Qed.

Lemma replaceAll_go_skip pat rep k s :
  replaceAll_go pat rep k s = replaceAll_go pat rep 0 (drop k s).
Proof.
  revert k. induction s as [|c s IH]; intros [|k]; try reflexivity.
  simpl. rewrite IH. reflexivity.
Qed.

(** The equations of the scan. *)
Lemma replaceAllL_nil pat rep :
  pat <> [] -> replaceAllL pat rep [] = [].
Proof. destruct pat; [done | reflexivity]. Qed.

Lemma replaceAllL_hit pat rep s :
  pat <> [] -> pat `prefix_of` s ->
  replaceAllL pat rep s = rep ++ replaceAllL pat rep (drop (length pat) s).
Proof.
  intros Hne Hp. destruct pat as [|p pat]; [done |].
  destruct s as [|c s].
  - destruct Hp as [k Hk]. discriminate.
  - unfold replaceAllL. cbn [replaceAll_go].
    rewrite (proj2 (startsWithL_true _ _) Hp).
    rewrite replaceAll_go_skip. simpl. by rewrite Nat.sub_0_r.
Qed.

Lemma replaceAllL_miss pat rep c s :
  pat <> [] -> ¬ pat `prefix_of` (c :: s) ->
  replaceAllL pat rep (c :: s) = c :: replaceAllL pat rep s.
Proof.
  intros Hne Hp. destruct pat as [|p pat]; [done |].
  unfold replaceAllL. cbn [replaceAll_go].
  by rewrite (proj2 (startsWithL_false _ _) Hp).
Qed.

(** An occurrence of the search string leaves the replacement behind. *)
Lemma replaceAllL_includes pat rep s :
  pat <> [] -> includesL pat s = true ->
  includesL rep (replaceAllL pat rep s) = true.
Proof.
  intros Hne. induction s as [|c s IH]; intros Hin.
  - simpl in Hin. rewrite orb_false_r in Hin.
    apply startsWithL_true in Hin. destruct Hin as [k Hk].
    destruct pat; [done | discriminate].
  - destruct (decide (pat `prefix_of` (c :: s))) as [Hp | Hp].
    + rewrite replaceAllL_hit by done.
      apply includesL_spec. by exists [], (replaceAllL pat rep (drop (length pat) (c :: s))).
    + rewrite replaceAllL_miss by done.
      simpl in Hin. rewrite (proj2 (startsWithL_false _ _) Hp) in Hin.
      simpl in Hin. apply IH in Hin.
      apply includesL_spec in Hin as (a & b & Hab).
      apply includesL_spec. exists (c :: a), b. simpl. by rewrite Hab.
Qed.

Lemma agree_of_prefixes x y z :
  x `prefix_of` z -> y `prefix_of` z -> agree x y = true.
Proof.
  intros Hx Hy. unfold agree. apply orb_true_iff.
  destruct (prefix_weak_total _ _ _ Hx Hy) as [H | H];
    [left | right]; by apply startsWithL_true.
Qed.

Lemma no_overlap_left pat q l r :
  no_overlap pat q = true -> (length l < length pat)%nat ->
  ¬ pat `prefix_of` (l ++ q ++ r).
Proof.
  unfold no_overlap. intros Hno Hlen [k Hk].
  apply andb_true_iff in Hno as [Hno _].
  rewrite forallb_forall in Hno.
  specialize (Hno (length l)).
  rewrite negb_true_iff in Hno.
  assert (Hd : drop (length l) pat `prefix_of` q ++ r).
  { exists k. apply (f_equal (drop (length l))) in Hk.
    rewrite drop_app_length in Hk. rewrite Hk.
    rewrite drop_app_le by lia. reflexivity. }
  rewrite (agree_of_prefixes _ _ (q ++ r)) in Hno.
  - discriminate Hno. apply in_seq. lia.
  - exact Hd.
  - by exists r.
Qed.

Lemma no_overlap_right pat q d r :
  no_overlap pat q = true -> (d < length q)%nat ->
  ¬ pat `prefix_of` (drop d q ++ r).
Proof.
  unfold no_overlap. intros Hno Hlen Hp.
  apply andb_true_iff in Hno as [_ Hno].
  rewrite forallb_forall in Hno.
  specialize (Hno d). rewrite negb_true_iff in Hno.
  rewrite (agree_of_prefixes _ _ (drop d q ++ r)) in Hno.
  - discriminate Hno. apply in_seq. lia.
  - exact Hp.
  - by exists r.
Qed.

Lemma replaceAllL_through pat rep q b d :
  pat <> [] -> no_overlap pat q = true ->
  replaceAllL pat rep (drop d q ++ b) = drop d q ++ replaceAllL pat rep b.
Proof.
  intros Hne Hno.
  remember (length q - d)%nat as n eqn:Hn. revert d Hn.
  induction n as [|n IH]; intros d Hn.
  - rewrite drop_ge by lia. reflexivity.
  - destruct (lookup_lt_is_Some_2 q d) as [x Hx]; [lia |].
    rewrite (drop_S _ _ _ Hx). simpl.
    rewrite replaceAllL_miss; [| done |].
    + f_equal. apply IH. lia.
    + change (x :: drop (S d) q ++ b) with ((x :: drop (S d) q) ++ b).
      rewrite <- (drop_S _ _ _ Hx). apply no_overlap_right; [done | lia].
Qed.

Lemma prefix_of_app_short pat a r :
  pat `prefix_of` a ++ r -> (length pat <= length a)%nat -> pat `prefix_of` a.
Proof.
  intros [k Hk] Hlen. exists (take (length a - length pat) k).
  apply (f_equal (take (length a))) in Hk.
  rewrite take_app_length, take_app_ge in Hk by lia. exact Hk.
Qed.

(** An occurrence of [q] that no match can touch is copied unchanged, and
    the text before and after it is scanned on its own. *)
Lemma replaceAllL_keep pat rep q a b :
  pat <> [] -> no_overlap pat q = true ->
  replaceAllL pat rep (a ++ q ++ b) =
  replaceAllL pat rep a ++ q ++ replaceAllL pat rep b.
Proof.
  intros Hne Hno.
  remember (length a) as n eqn:Hn. revert a Hn.
  induction n as [n IH] using lt_wf_ind. intros a Hn.
  destruct a as [|c a].
  - simpl. rewrite replaceAllL_nil by done. simpl.
    apply (replaceAllL_through pat rep q b 0 Hne Hno).
  - destruct (decide (pat `prefix_of` (c :: a) ++ q ++ b)) as [Hp | Hp].
    + assert (Hlen : (length pat <= length (c :: a))%nat).
      { destruct (decide (length pat <= length (c :: a))%nat); [done |].
        exfalso. eapply no_overlap_left; [exact Hno | | exact Hp]. lia. }
      pose proof (prefix_of_app_short _ _ _ Hp Hlen) as Hpa.
      rewrite replaceAllL_hit by done.
      rewrite (replaceAllL_hit pat rep (c :: a)) by done.
      rewrite drop_app_le by done.
      rewrite (IH (length (drop (length pat) (c :: a)))); [| | done].
      * by rewrite <- app_assoc.
      * rewrite length_drop. destruct pat; [done |]. simpl in *. lia.
    + assert (Hpa : ¬ pat `prefix_of` (c :: a)).
      { intros H. apply Hp. by apply prefix_app_r. }
      simpl in *. rewrite !replaceAllL_miss by done.
      simpl. f_equal. apply (IH (length a)); [simpl in Hn; lia | done].
Qed.

Lemma replaceAllL_keeps_includes pat rep q s :
  pat <> [] -> no_overlap pat q = true ->
  includesL q s = true -> includesL q (replaceAllL pat rep s) = true.
Proof.
  intros Hne Hno Hin. apply includesL_spec in Hin as (a & b & ->).
  rewrite replaceAllL_keep by done. apply includesL_spec. eauto.
Qed.
(** The scan on small texts: matches do not overlap, and the text a
    replacement leaves is not scanned again. *)
Example replaceAll_twice :
  replaceAll "a{{user}}b{{user}}{{{user}}}" "{{user}}" "X" = "aXbX{X}".
Proof. reflexivity. Qed.

Example replaceAll_no_overlap : replaceAll "aaa" "aa" "b" = "ba".
Proof. reflexivity. Qed.

Example replaceAll_not_rescanned : replaceAll "ab" "a" "aa" = "aab".
Proof. reflexivity. Qed.

Example replaceAll_empty_pattern : replaceAll "abc" "" "-" = "-a-b-c-".
Proof. reflexivity. Qed.

Example parseInt_values :
  (parseInt "2", parseInt "1abc", parseInt " 12", parseInt "-0",
   parseInt "abc", parseInt "", parseInt "0x1F", parseInt "-5",
   parseInt "0x", parseInt "+7.5") =
  (Some 2, Some 1, Some 12, Some 0, None, None, Some 31, Some (-5), None,
   Some 7).
Proof. reflexivity. Qed.

Example trim_value : trim "  a brave knight 	" = "a brave knight".
Proof. reflexivity. Qed.

End ReplaceAll.

(** ** The loop over [mainContextList] *)

Section Assembly.
Context {Character WIEntry BuildPromptOptions Extra : Type}.
Context (host : @Host Character WIEntry BuildPromptOptions Extra).
Implicit Types (templateData : @TemplateData Character WIEntry).
Implicit Types (chatMessages : list (@BaseMessage Extra)).
Implicit Types (promptSettings : gmap string PromptSetting).
Implicit Types (messages : list Message) (mainContext : MainContext).

Lemma forOf_app {A B : Type} (body : B -> A -> Result B) (l1 l2 : list A)
  (acc : B) :
  forOf body (l1 ++ l2) acc =
  match forOf body l1 acc with
  | inl e => inl e
  | inr acc' => forOf body l2 acc'
  end.
Proof.
  revert acc. induction l1 as [|x l1 IH]; intros acc; simpl; [done |].
  destruct (body acc x); [done | apply IH].
Qed.

Lemma getProperty_Own {V : Type} (obj : gmap string V) (key : string) (v : V) :
  obj !! key = Some v -> getProperty obj key = Own v.
Proof. intros H. unfold getProperty. by rewrite H. Qed.

Lemma getProperty_Absent {V : Type} (obj : gmap string V) (key : string) :
  obj !! key = None -> key ∉ objectPrototypeNames ->
  getProperty obj key = Absent.
Proof.
  intros H Hnot. unfold getProperty. rewrite H.
  by rewrite bool_decide_eq_false_2.
Qed.

Lemma getProperty_Inherited {V : Type} (obj : gmap string V) (key : string) :
  obj !! key = None -> key ∈ objectPrototypeNames ->
  getProperty obj key = Inherited.
Proof.
  intros H Hin. unfold getProperty. rewrite H.
  by rewrite bool_decide_eq_true_2.
Qed.

Lemma mainContextStep_chatHistory templateData chatMessages promptSettings
  messages mainContext :
  promptName mainContext = "chatHistory" ->
  mainContextStep host templateData chatMessages promptSettings messages
    mainContext = inr (messages ++ chatHistoryOf chatMessages).
Proof.
  intros Hname. unfold mainContextStep.
  rewrite bool_decide_eq_true_2 by done. reflexivity.
Qed.

Lemma mainContextStep_missing templateData chatMessages promptSettings
  messages mainContext :
  promptName mainContext <> "chatHistory" ->
  promptSettings !! promptName mainContext = None ->
  promptName mainContext ∉ objectPrototypeNames ->
  mainContextStep host templateData chatMessages promptSettings messages
    mainContext = inr messages.
Proof.
  intros Hname Hnone Hnot. unfold mainContextStep.
  rewrite bool_decide_eq_false_2 by done.
  by rewrite getProperty_Absent.
Qed.

(** X22. An entry that is not the chat history and whose name is not in
    the prompt settings but is inherited from [Object.prototype] is not
    skipped: the step raises what the template engine raises for a template
    that is [undefined], whatever was assembled before. *)
Theorem mainContextStep_inherited templateData chatMessages promptSettings
  messages mainContext :
  promptName mainContext <> "chatHistory" ->
  promptSettings !! promptName mainContext = None ->
  promptName mainContext ∈ objectPrototypeNames ->
  mainContextStep host templateData chatMessages promptSettings messages
    mainContext = inl (compileUndefined host).
Proof.
  intros Hname Hnone Hin. unfold mainContextStep.
  rewrite bool_decide_eq_false_2 by done.
  by rewrite getProperty_Inherited.
Qed.

Lemma mainContextStep_template templateData chatMessages promptSettings
  messages mainContext prompt rendered :
  promptName mainContext <> "chatHistory" ->
  promptSettings !! promptName mainContext = Some prompt ->
  render host (prompt_content prompt) templateData = inr rendered ->
  mainContextStep host templateData chatMessages promptSettings messages
    mainContext =
  inr (let final := substituteProtected (substituteParams host) rendered in
       if Str.truthy final
       then messages ++ [ {| role := mc_role mainContext; content := final |} ]
       else messages).
Proof.
  intros Hname Hsome Hrender. unfold mainContextStep.
  rewrite bool_decide_eq_false_2 by done.
  rewrite (getProperty_Own _ _ _ Hsome), Hrender. simpl.
  by destruct (Str.truthy _).
Qed.

(** Every step only appends to the array. *)
Lemma mainContextStep_extends templateData chatMessages promptSettings
  messages mainContext out :
  mainContextStep host templateData chatMessages promptSettings messages
    mainContext = inr out ->
  exists new,
    out = messages ++ new /\
    Forall (fun m => m ∈ chatHistoryOf chatMessages \/ content m <> "") new.
Proof.
  unfold mainContextStep. case_bool_decide as Hname.
  - intros [= <-]. eexists; split; [done |].
    apply Forall_forall. auto.
  - destruct (getProperty promptSettings _) as [prompt| |].
    + destruct (render host _ _) as [e | rendered]; [done |].
      simpl. destruct (Str.truthy _) eqn:Htruthy; intros [= <-].
      * eexists; split; [done |]. apply Forall_singleton. right. simpl.
        intros Hempty. rewrite Hempty in Htruthy. discriminate.
      * exists []. by rewrite app_nil_r.
    + done.
    + intros [= <-]. exists []. by rewrite app_nil_r.
Qed.

Lemma forOf_mainContextStep_extends templateData chatMessages promptSettings
  (l : list MainContext) messages out :
  forOf (mainContextStep host templateData chatMessages promptSettings) l
    messages = inr out ->
  exists new,
    out = messages ++ new /\
    Forall (fun m => m ∈ chatHistoryOf chatMessages \/ content m <> "") new.
Proof.
  revert messages. induction l as [|mc l IH]; intros messages; simpl.
  - intros [= <-]. exists []. by rewrite app_nil_r.
  - destruct (mainContextStep _ _ _ _ _ _) as [e | mid] eqn:Hstep; [done |].
    intros Hrest.
    apply mainContextStep_extends in Hstep as (n1 & -> & H1).
    apply IH in Hrest as (n2 & -> & H2).
    exists (n1 ++ n2). rewrite app_assoc. split; [done |].
    by apply Forall_app.
Qed.

End Assembly.

(** ** Placeholder protection *)

Lemma includes_replaceAll_hit (s pat rep : string) :
  Str.chars pat <> [] ->
  Str.includes s pat = true ->
  Str.includes (Str.replaceAll s pat rep) rep = true.
Proof.
  intros Hne Hin. unfold Str.includes, Str.replaceAll.
  rewrite String.list_ascii_of_string_of_list_ascii.
  by apply replaceAllL_includes.
Qed.

Lemma includes_replaceAll_keep (s pat rep q : string) :
  Str.chars pat <> [] ->
  Str.no_overlap (Str.chars pat) (Str.chars q) = true ->
  Str.includes s q = true ->
  Str.includes (Str.replaceAll s pat rep) q = true.
Proof.
  intros Hne Hno Hin. unfold Str.includes, Str.replaceAll.
  rewrite String.list_ascii_of_string_of_list_ascii.
  by apply replaceAllL_keeps_includes.
Qed.

Lemma includes_truthy (s q : string) :
  Str.chars q <> [] -> Str.includes s q = true -> Str.truthy s = true.
Proof.
  intros Hne Hin. destruct s; [| done].
  unfold Str.includes in Hin. simpl in Hin. rewrite orb_false_r in Hin.
  apply startsWithL_true in Hin as [k Hk].
  destruct (Str.chars q); [done | discriminate].
Qed.

(** [keep_token]: the outer [replaceAll] cannot touch the token looked for;
    [hit_token]: the outer [replaceAll] puts the token there. *)
Ltac keep_token :=
  apply includes_replaceAll_keep; [discriminate | vm_compute; reflexivity |].
Ltac hit_token := apply includes_replaceAll_hit; [discriminate |].

(** The stub leaves both placeholders in the text. *)
Lemma stubSubstituteParams_keeps (userName charName text q : string) :
  q = userPlaceHolder \/ q = charPlaceHolder ->
  Str.includes text q = true ->
  Str.includes (stubSubstituteParams userName charName text) q = true.
Proof.
  intros Hq Hin. unfold stubSubstituteParams.
  destruct Hq as [-> | ->]; do 2 keep_token; exact Hin.
Qed.

(** The round trip for any substitution that leaves the placeholders in
    the text. *)
Lemma substituteProtected_keeps (subst : string -> string)
  (rendered token : string) :
  (forall text q,
      q = userPlaceHolder \/ q = charPlaceHolder ->
      Str.includes text q = true -> Str.includes (subst text) q = true) ->
  token = "{{user}}" \/ token = "{{char}}" ->
  Str.includes rendered token = true ->
  Str.includes (substituteProtected subst rendered) token = true.
Proof.
  intros Hsubst Htoken Hin. unfold substituteProtected.
  destruct Htoken as [-> | ->].
  - (* restore char, restore user, substitute, protect char, protect user *)
    keep_token. hit_token. apply Hsubst; [by left |].
    keep_token. hit_token. exact Hin.
  - hit_token. keep_token. apply Hsubst; [by right |].
    hit_token. keep_token. exact Hin.
Qed.

Section AssemblyProperties.
Context {Character WIEntry BuildPromptOptions Extra : Type}.
Context (host : @Host Character WIEntry BuildPromptOptions Extra).
Implicit Types (templateData : @TemplateData Character WIEntry).
Implicit Types (chatMessages : list (@BaseMessage Extra)).
Implicit Types (promptSettings : gmap string PromptSetting).
Implicit Types (messages : list Message) (mainContext : MainContext).

(** C1. Placeholder protection round trip. With a host substitution that
    replaces every [{{user}}] and [{{char}}] by a persona name, a template
    whose rendered text contains the literal token [{{user}}] or
    [{{char}}] yields exactly one message, with the role of its entry, and
    the content of that message still contains the token. *)
Theorem placeholder_protection_round_trip (userName charName : string)
  templateData chatMessages promptSettings messages mainContext prompt
  (rendered token : string) :
  substituteParams host = stubSubstituteParams userName charName ->
  promptName mainContext <> "chatHistory" ->
  promptSettings !! promptName mainContext = Some prompt ->
  render host (prompt_content prompt) templateData = inr rendered ->
  token = "{{user}}" \/ token = "{{char}}" ->
  Str.includes rendered token = true ->
  exists final,
    mainContextStep host templateData chatMessages promptSettings messages
      mainContext =
    inr (messages ++ [ {| role := mc_role mainContext; content := final |} ])
    /\ final = substituteProtected (stubSubstituteParams userName charName)
                 rendered
    /\ Str.includes final token = true.
Proof.
  intros Hstub Hname Hsome Hrender Htoken Hin.
  assert (Hkeep :
    Str.includes
      (substituteProtected (stubSubstituteParams userName charName) rendered)
      token = true).
  { apply substituteProtected_keeps; [| done | done].
    intros text q. apply stubSubstituteParams_keeps. }
  eexists. split; [| split; [reflexivity | exact Hkeep]].
  rewrite (mainContextStep_template host _ _ _ _ _ _ _ Hname Hsome Hrender).
  rewrite Hstub. cbv zeta.
  rewrite (includes_truthy _ token); [done | | done].
  destruct Htoken as [-> | ->]; discriminate.
Qed.

(** X19. An entry that is not the chat history, whose name is not in the
    prompt settings and is not a name inherited from [Object.prototype]
    either, adds no message and raises nothing, and the entries before and
    after it contribute what they contribute without it. *)
Theorem missing_template_is_skipped templateData chatMessages promptSettings
  (before after : list MainContext) mainContext :
  promptName mainContext <> "chatHistory" ->
  promptSettings !! promptName mainContext = None ->
  promptName mainContext ∉ objectPrototypeNames ->
  (forall messages,
      mainContextStep host templateData chatMessages promptSettings messages
        mainContext = inr messages) /\
  assembleMessages host templateData chatMessages promptSettings
    (before ++ mainContext :: after) =
  assembleMessages host templateData chatMessages promptSettings
    (before ++ after).
Proof.
  intros Hname Hnone Hnot. split.
  - intros messages. by apply mainContextStep_missing.
  - unfold assembleMessages. rewrite !forOf_app.
    destruct (forOf _ before []) as [e | acc]; [done |].
    simpl. by rewrite mainContextStep_missing.
Qed.

(** C10. A chat history entry appends the role and content of every base
    message, in order, whatever its own role, the prompt settings and the
    host are: nothing is rendered or substituted, and a base message with
    an empty content is appended like the others. A list of [n] such
    entries yields [n] copies of the base messages. *)
Theorem chat_history_bypasses_processing templateData chatMessages
  promptSettings :
  (forall messages mainContext,
      promptName mainContext = "chatHistory" ->
      mainContextStep host templateData chatMessages promptSettings messages
        mainContext =
      inr (messages ++
           map (fun m => {| role := base_role m; content := base_content m |})
             chatMessages)) /\
  (forall mainContextList,
      Forall (fun mc => promptName mc = "chatHistory") mainContextList ->
      assembleMessages host templateData chatMessages promptSettings
        mainContextList =
      inr (concat (replicate (length mainContextList)
                     (chatHistoryOf chatMessages)))) /\
  (forall mainContext m,
      promptName mainContext = "chatHistory" ->
      m ∈ chatMessages -> base_content m = "" ->
      exists out,
        assembleMessages host templateData chatMessages promptSettings
          [mainContext] = inr out /\
        {| role := base_role m; content := "" |} ∈ out).
Proof.
  split; [| split].
  - intros messages mainContext Hname.
    by apply mainContextStep_chatHistory.
  - intros l Hall. unfold assembleMessages.
    enough (Hgen : forall acc,
      forOf (mainContextStep host templateData chatMessages promptSettings) l
        acc =
      inr (acc ++ concat (replicate (length l) (chatHistoryOf chatMessages))))
      by apply (Hgen []).
    induction Hall as [|mc l Hname Hall IH]; intros acc; simpl.
    + by rewrite app_nil_r.
    + rewrite mainContextStep_chatHistory by done.
      rewrite IH. by rewrite app_assoc.
  - intros mainContext m Hname Hm Hempty.
    exists (chatHistoryOf chatMessages). split.
    + unfold assembleMessages. simpl.
      by rewrite mainContextStep_chatHistory.
    + unfold chatHistoryOf. rewrite <- Hempty.
      apply (list_elem_of_fmap_2
               (fun m => {| role := base_role m; content := base_content m |})).
      exact Hm.
Qed.

End AssemblyProperties.

(** ** The whole call *)

Section RunProperties.
Context {Character WIEntry BuildPromptOptions Extra : Type}.
Context (disable : WIEntry -> bool).
Context (host : @Host Character WIEntry BuildPromptOptions Extra).
Implicit Types (p : @RunCharacterFieldGenerationParams Character WIEntry
                      BuildPromptOptions).

Lemma truthy_false (s : string) : Str.truthy s = false <-> s = "".
Proof. destruct s; simpl; split; congruence. Qed.

Lemma truthy_true (s : string) : Str.truthy s = true <-> s <> "".
Proof. destruct s; simpl; split; congruence. Qed.

Lemma findProfile_None (profileId : string) :
  (forall cm ps profile,
      connectionManager host = Some cm -> profiles cm = Some ps ->
      profile ∈ ps -> id profile <> profileId) ->
  findProfile host profileId = None.
Proof.
  intros Hno. unfold findProfile.
  destruct (connectionManager host) as [cm|]; [| done].
  destruct (profiles cm) as [ps|] eqn:Hps; [| done].
  assert (Hall : forall profile, profile ∈ ps -> id profile <> profileId)
    by (intros profile; by apply (Hno cm ps)).
  clear Hno Hps. induction ps as [|profile ps IH]; simpl; [done |].
  rewrite bool_decide_eq_false_2 by (apply Hall; left).
  apply IH. intros profile' Hin. apply Hall. by right.
Qed.

Lemma findProfile_Some (profileId : string) (profile : Profile) :
  findProfile host profileId = Some profile ->
  id profile = profileId /\
  exists cm ps,
    connectionManager host = Some cm /\ profiles cm = Some ps /\ profile ∈ ps.
Proof.
  unfold findProfile.
  destruct (connectionManager host) as [cm|]; [| done].
  destruct (profiles cm) as [ps|] eqn:Hps; [| done].
  intros Hfind. apply find_some in Hfind as [Hin Hid].
  apply bool_decide_eq_true_1 in Hid. split; [done |].
  exists cm, ps. repeat split; try done. by apply list_elem_of_In.
Qed.

(** X17. The designed failure of line 95: a profile that is found but has
    no [api], or an empty one, or whose entry of the API map has no
    selected backend, fails with the error that names the profile, before
    any host call. *)
Lemma undeterminable_api_error p (profile : Profile) :
  Str.truthy (profileId p) = true ->
  findProfile host (profileId p) = Some profile ->
  api profile = None \/ api profile = Some "" \/
  (exists a entry,
      api profile = Some a /\ CONNECT_API_MAP host !! a = Some entry /\
      (selected entry = None \/ selected entry = Some "")) ->
  runCharacterFieldGeneration disable host p =
  ([], inl (Error (noApiMessage (name profile)))).
Proof.
  intros Hid Hfind Hapi. unfold runCharacterFieldGeneration.
  rewrite Hid, Hfind. simpl. unfold selectedApiOf.
  destruct Hapi as [-> | [-> | (a & entry & -> & Hentry & Hsel)]]; try done.
  destruct (Str.truthy a); [| done].
  rewrite (getProperty_Own _ _ _ Hentry).
  by destruct Hsel as [-> | ->].
Qed.

(** X18. The failure that line 93 adds: for a profile that is found and
    whose [api] is neither a key of the API map nor a name inherited from
    [Object.prototype], reading [selected] raises a [TypeError], before any
    host call. *)
Lemma unknown_api_type_error p (profile : Profile) (a : string) :
  Str.truthy (profileId p) = true ->
  findProfile host (profileId p) = Some profile ->
  api profile = Some a -> a <> "" ->
  CONNECT_API_MAP host !! a = None ->
  a ∉ objectPrototypeNames ->
  runCharacterFieldGeneration disable host p =
  ([], inl (TypeError "selected")).
Proof.
  intros Hid Hfind Hapi Ha Hnone Hnot. unfold runCharacterFieldGeneration.
  rewrite Hid, Hfind. simpl. unfold selectedApiOf.
  by rewrite Hapi, (proj2 (truthy_true _) Ha), getProperty_Absent.
Qed.

(** X21. An [api] that names a property of [Object.prototype] and is no
    key of the API map finds a function without [selected]: the call fails
    with the error of line 95, before any host call. *)
Theorem inherited_api_error p (profile : Profile) (a : string) :
  Str.truthy (profileId p) = true ->
  findProfile host (profileId p) = Some profile ->
  api profile = Some a ->
  CONNECT_API_MAP host !! a = None ->
  a ∈ objectPrototypeNames ->
  runCharacterFieldGeneration disable host p =
  ([], inl (Error (noApiMessage (name profile)))).
Proof.
  intros Hid Hfind Hapi Hnone Hin. unfold runCharacterFieldGeneration.
  rewrite Hid, Hfind. simpl. unfold selectedApiOf. rewrite Hapi.
  destruct (Str.truthy a); [| done].
  by rewrite getProperty_Inherited.
Qed.

(** C3. An empty [profileId] fails with the error of line 84 (the
    configuration error: no profile selected), and a [profileId] that no
    connection profile carries fails with the error of line 88 (the
    not-found error: profile missing); in both cases no host call was
    awaited (neither the base prompt builder nor the request service),
    whatever the rest of the request is. *)
Theorem profile_errors_before_any_call p :
  (profileId p = "" ->
   runCharacterFieldGeneration disable host p =
   ([], inl (Error "No connection profile selected."))) /\
  (profileId p <> "" ->
   (forall cm ps profile,
       connectionManager host = Some cm -> profiles cm = Some ps ->
       profile ∈ ps -> id profile <> profileId p) ->
   runCharacterFieldGeneration disable host p =
   ([], inl (Error (notFoundMessage (profileId p))))).
Proof.
  split.
  - intros Hempty. unfold runCharacterFieldGeneration. by rewrite Hempty.
  - intros Hne Hno. unfold runCharacterFieldGeneration.
    rewrite (proj2 (truthy_true _) Hne). simpl.
    by rewrite (findProfile_None _ Hno).
Qed.

(** C2. For a request that passes the checks and whose [mainContextList] is
    the single entry [chatHistory], the message list handed to the request
    service is the output of the base prompt builder: as long, and with the
    role and the content of the base message at every position. *)
Theorem chat_history_only_is_base_output p (profile : Profile)
  (theApi entryRole : string) (chatMessages : list (@BaseMessage Extra)) :
  profileId p <> "" ->
  findProfile host (profileId p) = Some profile ->
  selectedApiOf host profile = inr (Some theApi) ->
  theApi <> "" ->
  buildPrompt host theApi (buildPromptOptions p) = inr chatMessages ->
  mainContextList p =
    [ {| promptName := "chatHistory"; mc_role := entryRole |} ] ->
  exists sent,
    fst (runCharacterFieldGeneration disable host p) =
      [ CallBuildPrompt theApi (buildPromptOptions p);
        CallSendRequest (profileId p) sent (maxResponseToken p) ] /\
    sentMessages (fst (runCharacterFieldGeneration disable host p)) = [sent] /\
    length sent = length chatMessages /\
    map role sent = map base_role chatMessages /\
    map content sent = map base_content chatMessages /\
    (forall i m,
        chatMessages !! i = Some m ->
        sent !! i = Some {| role := base_role m; content := base_content m |}).
Proof.
  intros Hid Hfind Hapi Htruthy Hbuild Hlist.
  exists (chatHistoryOf chatMessages).
  assert (Htrace :
    fst (runCharacterFieldGeneration disable host p) =
      [ CallBuildPrompt theApi (buildPromptOptions p);
        CallSendRequest (profileId p) (chatHistoryOf chatMessages)
          (maxResponseToken p) ]).
  { unfold runCharacterFieldGeneration.
    rewrite (proj2 (truthy_true _) Hid). simpl.
    rewrite Hfind, Hapi. simpl.
    rewrite (proj2 (truthy_true _) Htruthy), Hbuild, Hlist. simpl.
    unfold assembleMessages. simpl.
    by destruct (sendRequest host _ _ _) as [e | response]. }
  rewrite Htrace. unfold chatHistoryOf.
  repeat split.
  - by rewrite length_map.
  - rewrite map_map. reflexivity.
  - rewrite map_map. reflexivity.
  - intros i m Hm. change (map ?f ?l) with (f <$> l).
    rewrite list_lookup_fmap, Hm. reflexivity.
Qed.

(** Whatever list reaches the request service was assembled from the
    output of the base prompt builder. *)
Lemma sent_messages_are_assembled p (sent : list Message) :
  sent ∈ sentMessages (fst (runCharacterFieldGeneration disable host p)) ->
  exists theApi chatMessages,
    buildPrompt host theApi (buildPromptOptions p) = inr chatMessages /\
    assembleMessages host
      (templateDataOf disable host p
         (substituteParams host (Str.trim (userPrompt p))))
      chatMessages (promptSettings p) (mainContextList p) = inr sent.
Proof.
  unfold runCharacterFieldGeneration.
  destruct (Str.truthy (profileId p)); simpl; [| by intros ?%elem_of_nil].
  destruct (findProfile host (profileId p)) as [profile|];
    simpl; [| by intros ?%elem_of_nil].
  destruct (selectedApiOf host profile) as [e | [theApi|]];
    simpl; try by intros ?%elem_of_nil.
  destruct (Str.truthy theApi); simpl; [| by intros ?%elem_of_nil].
  destruct (buildPrompt host theApi (buildPromptOptions p))
    as [e | chatMessages] eqn:Hbuild; simpl; [by intros ?%elem_of_nil |].
  destruct (assembleMessages _ _ _ _ _) as [e | messages] eqn:Hasm;
    simpl; [by intros ?%elem_of_nil |].
  intros Hsent. exists theApi, chatMessages. split; [done |].
  destruct (sendRequest host _ _ _) as [e | response]; simpl in Hsent;
    apply list_elem_of_singleton in Hsent as ->; exact Hasm.
Qed.

(** C8. A template whose rendered and substituted content is empty adds no
    message, a template with another content adds exactly that message,
    and every message of an assembled list, hence of a list handed to the
    request service, either is a message of the chat history or has a
    content that is not empty. *)
Theorem no_empty_template_message :
  (forall (templateData : @TemplateData Character WIEntry)
          (chatMessages : list (@BaseMessage Extra))
          (promptSettings : gmap string PromptSetting)
          (messages : list Message) (mainContext : MainContext)
          (prompt : PromptSetting) (rendered : string),
      promptName mainContext <> "chatHistory" ->
      promptSettings !! promptName mainContext = Some prompt ->
      render host (prompt_content prompt) templateData = inr rendered ->
      mainContextStep host templateData chatMessages promptSettings messages
        mainContext =
      inr (if decide (substituteProtected (substituteParams host) rendered = "")
           then messages
           else messages ++
                [ {| role := mc_role mainContext;
                     content :=
                       substituteProtected (substituteParams host) rendered |} ]))
  /\
  (forall (templateData : @TemplateData Character WIEntry)
          (chatMessages : list (@BaseMessage Extra))
          (promptSettings : gmap string PromptSetting)
          (mainContextList : list MainContext) (out : list Message),
      assembleMessages host templateData chatMessages promptSettings
        mainContextList = inr out ->
      Forall (fun m => m ∈ chatHistoryOf chatMessages \/ content m <> "") out)
  /\
  (forall p (sent : list Message),
      sent ∈ sentMessages (fst (runCharacterFieldGeneration disable host p)) ->
      exists theApi chatMessages,
        buildPrompt host theApi (buildPromptOptions p) = inr chatMessages /\
        Forall (fun m => m ∈ chatHistoryOf chatMessages \/ content m <> "")
          sent).
Proof.
  split; [| split].
  - intros templateData chatMessages promptSettings messages mainContext
      prompt rendered Hname Hsome Hrender.
    rewrite (mainContextStep_template host _ _ _ _ _ _ _ Hname Hsome Hrender).
    cbv zeta. destruct (substituteProtected _ _); by case_decide.
  - intros templateData chatMessages promptSettings l out Hout.
    unfold assembleMessages in Hout.
    apply forOf_mainContextStep_extends in Hout as (new & -> & Hnew).
    exact Hnew.
  - intros p sent Hsent.
    apply sent_messages_are_assembled in Hsent
      as (theApi & chatMessages & Hbuild & Hasm).
    exists theApi, chatMessages. split; [done |].
    unfold assembleMessages in Hasm.
    apply forOf_mainContextStep_extends in Hasm as (new & -> & Hnew).
    exact Hnew.
Qed.

End RunProperties.

(** ** The template context *)

Section TemplateContext.
Context {Character WIEntry BuildPromptOptions Extra : Type}.
Context (disable : WIEntry -> bool).
Context (host : @Host Character WIEntry BuildPromptOptions Extra).
Implicit Types (p : @RunCharacterFieldGenerationParams Character WIEntry
                      BuildPromptOptions).
Implicit Types (allCharacters : list Character).

Lemma charactersData_omap allCharacters (indexes : list string) :
  charactersData allCharacters indexes =
  omap (characterAt allCharacters) indexes.
Proof.
  unfold charactersData.
  enough (Hgen : forall acc,
    foldl (fun acc charIndex =>
             match characterAt allCharacters charIndex with
             | Some char => acc ++ [char]
             | None => acc
             end) acc indexes =
    acc ++ omap (characterAt allCharacters) indexes) by apply (Hgen []).
  induction indexes as [|i indexes IH]; intros acc; simpl.
  - by rewrite app_nil_r.
  - rewrite IH. destruct (characterAt allCharacters i); [| done].
    by rewrite <- app_assoc.
Qed.

Lemma characterAt_None allCharacters (charIndex : string) :
  characterAt allCharacters charIndex = None <->
  Str.parseInt charIndex = None \/
  exists n, Str.parseInt charIndex = Some n /\
            (n < 0 \/ Z.of_nat (length allCharacters) <= n).
Proof.
  unfold characterAt. destruct (Str.parseInt charIndex) as [n|].
  - destruct (Z.leb_spec 0 n) as [Hle | Hlt].
    + rewrite lookup_ge_None. split.
      * intros Hlen. right. exists n. split; [done |]. right. lia.
      * intros [? | (n' & [= <-] & [? | ?])]; [done | lia | lia].
    + split; [| done]. intros _. right. exists n. split; [done |]. by left.
  - split; [by left | done].
Qed.

Lemma isDecimalDigit_digitValue (c : ascii) :
  Str.isDecimalDigit c = true ->
  Str.digitValue 10 c = Some (Z.of_nat (nat_of_ascii c) - 48) /\
  Str.isWhiteSpace c = false /\
  c <> "-"%char /\ c <> "+"%char /\ c <> "x"%char /\ c <> "X"%char.
Proof.
  destruct c as [[] [] [] [] [] [] [] []]; try discriminate;
    intros _; repeat split; try reflexivity; discriminate.
Qed.

Lemma parseDigits_decimal (s : list ascii) (acc : Z) :
  forallb Str.isDecimalDigit s = true ->
  Str.parseDigits 10 (Some acc) s =
  Some (foldl (fun a c => a * 10 + (Z.of_nat (nat_of_ascii c) - 48)) acc s).
Proof.
  revert acc. induction s as [|c s IH]; intros acc Hall; [done |].
  simpl in Hall. apply andb_true_iff in Hall as [Hc Hall].
  cbn [Str.parseDigits foldl].
  destruct (isDecimalDigit_digitValue c Hc) as (-> & _).
  by apply IH.
Qed.

(** On a string of decimal digits [parseInt] is the number they denote. *)
Lemma parseInt_digits (s : string) :
  Str.isDigits (Str.chars s) = true ->
  Str.parseInt s = Some (Str.decimalValue (Str.chars s)).
Proof.
  unfold Str.parseInt, Str.parseIntL, Str.decimalValue, Str.isDigits.
  destruct (Str.chars s) as [|c cs]; [done |].
  intros Hall. pose proof Hall as Hall'. simpl in Hall'.
  apply andb_true_iff in Hall' as [Hc Hcs].
  destruct (isDecimalDigit_digitValue c Hc)
    as (Hval & Hws & Hminus & Hplus & _).
  cbn [Str.trimStartL]. rewrite Hws.
  assert (Hsign :
    match c :: cs with
    | "-"%char :: s' => (-1, s')
    | "+"%char :: s' => (1, s')
    | _ => (1, c :: cs)
    end = (1, c :: cs)).
  { destruct c as [[] [] [] [] [] [] [] []]; try reflexivity; congruence. }
  rewrite Hsign.
  assert (Hradix :
    match c :: cs with
    | "0"%char :: "x"%char :: s' => (16, s')
    | "0"%char :: "X"%char :: s' => (16, s')
    | _ => (10, c :: cs)
    end = (10, c :: cs)).
  { destruct cs as [|c' cs].
    - destruct c as [[] [] [] [] [] [] [] []]; reflexivity.
    - simpl in Hcs. apply andb_true_iff in Hcs as [Hc' _].
      destruct (isDecimalDigit_digitValue c' Hc')
        as (_ & _ & _ & _ & Hx & HX).
      destruct c as [[] [] [] [] [] [] [] []]; try reflexivity;
        destruct c' as [[] [] [] [] [] [] [] []]; try reflexivity;
        congruence. }
  rewrite Hradix. cbn [Str.parseDigits]. rewrite Hval.
  rewrite parseDigits_decimal by done.
  cbn [foldl]. rewrite Z.mul_1_l. f_equal.
Qed.

Lemma decimalValue_nonneg (s : list ascii) :
  forallb Str.isDecimalDigit s = true -> 0 <= Str.decimalValue s.
Proof.
  unfold Str.decimalValue.
  enough (Hgen : forall acc, 0 <= acc ->
    forallb Str.isDecimalDigit s = true ->
    0 <= foldl (fun a c => a * 10 + (Z.of_nat (nat_of_ascii c) - 48)) acc s)
    by (apply Hgen; lia).
  induction s as [|c s IH]; intros acc Hacc Hall; [done |].
  simpl in Hall. apply andb_true_iff in Hall as [Hc Hall].
  cbn [foldl]. apply IH; [| done].
  unfold Str.isDecimalDigit in Hc. cbv zeta in Hc.
  apply andb_true_iff in Hc as [Hlo _]. apply Z.leb_le in Hlo. lia.
Qed.

Lemma NoDup_fst_filter {V : Type} (P : string * V -> bool)
  (l : list (string * V)) :
  NoDup l.*1 -> NoDup (List.filter P l).*1.
Proof.
  induction l as [|kv l IH]; simpl; [done |].
  rewrite NoDup_cons. intros [Hk Hnd].
  destruct (P kv); [| by apply IH].
  rewrite fmap_cons, NoDup_cons. split; [| by apply IH].
  intros Hin. apply Hk.
  apply list_elem_of_fmap in Hin as (y & -> & Hy).
  apply list_elem_of_fmap. exists y. split; [done |].
  apply list_elem_of_In. apply list_elem_of_In in Hy.
  by apply filter_In in Hy as [Hy _].
Qed.

(** Assigning the properties one by one, each key once. *)
Lemma foldl_insert_lookup {V W : Type} (f : V -> W) (l : list (string * V))
  (m0 : gmap string W) (w : string) (v : W) :
  NoDup l.*1 ->
  foldl (fun acc kv => <[kv.1 := f kv.2]> acc) m0 l !! w = Some v <->
  (exists x, (w, x) ∈ l /\ v = f x) \/ ((w ∉ l.*1) /\ m0 !! w = Some v).
Proof.
  revert m0. induction l as [|[k x] l IH]; intros m0 Hnd; simpl.
  - split.
    + intros Hm. right. split; [apply not_elem_of_nil | done].
    + intros [(x & Hin & _) | [_ Hm]]; [by apply elem_of_nil in Hin | done].
  - rewrite fmap_cons, NoDup_cons in Hnd. simpl in Hnd.
    destruct Hnd as [Hk Hnd]. rewrite IH by done. clear IH.
    destruct (decide (k = w)) as [-> | Hne].
    + rewrite lookup_insert_eq. split.
      * intros [(x' & Hin & ->) | [Hnot [= <-]]].
        -- left. exists x'. split; [by right | done].
        -- left. exists x. split; [by left | done].
      * intros [(x' & Hin & ->) | [Hnot _]].
        -- apply elem_of_cons in Hin as [[= <-] | Hin].
           ++ right. by split.
           ++ exfalso. apply Hk. apply list_elem_of_fmap.
              by exists (w, x').
        -- exfalso. apply Hnot. by left.
    + rewrite lookup_insert_ne by done. split.
      * intros [(x' & Hin & ->) | [Hnot Hm]].
        -- left. exists x'. split; [by right | done].
        -- right. split; [| done].
           intros Hin. apply elem_of_cons in Hin as [? | ?]; [congruence | done].
      * intros [(x' & Hin & ->) | [Hnot Hm]].
        -- apply elem_of_cons in Hin as [[= ? ?] | Hin]; [congruence |].
           left. by exists x'.
        -- right. split; [| done]. intros Hin. apply Hnot. by right.
Qed.

Lemma worldIsUsed_spec (selected : list string) (w : string)
  (entries : list WIEntry) :
  worldIsUsed disable selected (w, entries) = true <->
  entries <> [] /\ w ∈ selected /\
  exists entry, entry ∈ entries /\ disable entry = false.
Proof.
  unfold worldIsUsed. simpl.
  rewrite !andb_true_iff, bool_decide_eq_true, Z.ltb_lt, existsb_exists.
  split.
  - intros [[Hlen Hsel] (entry & Hin & Hen)]. split; [| split; [done |]].
    + destruct entries; [simpl in Hlen; lia | done].
    + exists entry. split; [by apply list_elem_of_In |].
      unfold enabled in Hen. by apply negb_true_iff in Hen.
  - intros (Hne & Hsel & entry & Hin & Hen). split; [split; [| done] |].
    + destruct entries; [done | simpl; lia].
    + exists entry. split; [by apply list_elem_of_In |].
      unfold enabled. by rewrite Hen.
Qed.

(** The assignments that add a property are the ones to another name than
    [__proto__]. *)
Lemma foldl_setProperty {V W : Type} (f : V -> W) (l : list (string * V))
  (m0 : gmap string W) :
  foldl (fun acc kv => setProperty acc kv.1 (f kv.2)) m0 l =
  foldl (fun acc kv => <[kv.1 := f kv.2]> acc) m0
    (List.filter (fun kv => negb (bool_decide (kv.1 = "__proto__"))) l).
Proof.
  revert m0. induction l as [|[k x] l IH]; intros m0; [done |].
  cbn [foldl List.filter]. unfold setProperty at 2. cbn [fst snd].
  destruct (bool_decide (k = "__proto__")); simpl; apply IH.
Qed.

Lemma lorebooksData_lookup (groups : gmap string (list WIEntry))
  (selected : list string) (w : string) (l : list WIEntry) :
  lorebooksData disable groups selected !! w = Some l <->
  w <> "__proto__" /\
  exists entries,
    groups !! w = Some entries /\ entries <> [] /\ w ∈ selected /\
    (exists entry, entry ∈ entries /\ disable entry = false) /\
    l = List.filter (fun entry => negb (disable entry)) entries.
Proof.
  unfold lorebooksData.
  rewrite (foldl_setProperty (List.filter (enabled disable))).
  rewrite (foldl_insert_lookup (List.filter (enabled disable)))
    by (do 2 apply NoDup_fst_filter; apply NoDup_fst_map_to_list).
  rewrite lookup_empty. split.
  - intros [(entries & Hin & ->) | [_ ?]]; [| done].
    apply list_elem_of_In, filter_In in Hin as [Hin Hproto].
    apply filter_In in Hin as [Hin Hused].
    apply list_elem_of_In, elem_of_map_to_list in Hin.
    apply worldIsUsed_spec in Hused as (Hne & Hsel & Hen).
    simpl in Hproto. apply negb_true_iff, bool_decide_eq_false in Hproto.
    split; [done |]. exists entries. by repeat split.
  - intros (Hproto & entries & Hlook & Hne & Hsel & Hen & ->).
    left. exists entries. split; [| done].
    apply list_elem_of_In, filter_In. split.
    + apply filter_In. split.
      * by apply list_elem_of_In, elem_of_map_to_list.
      * apply worldIsUsed_spec. by repeat split.
    + simpl. by apply negb_true_iff, bool_decide_eq_false.
Qed.

(** X20. A world name other than [__proto__] is a key of [lorebooks] in
    the template context exactly when the grouped entries have it with a
    list that is not empty, the name is among the selected world names, and
    one of its entries is enabled; the value of a key is the list of the
    enabled entries of its world, in their order. A world whose entries are
    all disabled, and a world that is not selected, are not keys. *)
Theorem lorebooks_hold_selected_enabled p (processedUserPrompt w : string) :
  let lorebooks :=
    td_lorebooks (templateDataOf disable host p processedUserPrompt) in
  (w <> "__proto__" ->
   (is_Some (lorebooks !! w) <->
    exists entries,
      entriesGroupByWorldName p !! w = Some entries /\ entries <> [] /\
      w ∈ selectedWorldNames (session p) /\
      exists entry, entry ∈ entries /\ disable entry = false)) /\
  (forall entries,
      entriesGroupByWorldName p !! w = Some entries ->
      is_Some (lorebooks !! w) ->
      lorebooks !! w =
      Some (List.filter (fun entry => negb (disable entry)) entries)) /\
  (forall entries,
      entriesGroupByWorldName p !! w = Some entries ->
      Forall (fun entry => disable entry = true) entries ->
      lorebooks !! w = None) /\
  (w ∉ selectedWorldNames (session p) -> lorebooks !! w = None).
Proof.
  cbv zeta. cbn [templateDataOf td_lorebooks].
  split; [| split; [| split]].
  - intros Hproto. split.
    + intros [l Hl]. apply lorebooksData_lookup in Hl
        as (_ & entries & ? & ? & ? & ? & _). by exists entries.
    + intros (entries & ? & ? & ? & ?). eexists.
      apply lorebooksData_lookup. split; [done |].
      exists entries. by repeat split.
  - intros entries Hlook [l Hl]. rewrite Hl.
    apply lorebooksData_lookup in Hl
      as (_ & entries' & Hlook' & _ & _ & _ & ->).
    congruence.
  - intros entries Hlook Hall.
    apply eq_None_not_Some. intros [l Hl].
    apply lorebooksData_lookup in Hl
      as (_ & entries' & Hlook' & _ & _ & (entry & Hin & Hen) & _).
    assert (entries' = entries) as -> by congruence.
    rewrite Forall_forall in Hall. specialize (Hall entry Hin). congruence.
  - intros Hsel. apply eq_None_not_Some. intros [l Hl].
    by apply lorebooksData_lookup in Hl as (_ & _ & _ & _ & ? & _).
Qed.

Lemma not_digit_digitValue (c : ascii) :
  Str.isDecimalDigit c = false -> Str.digitValue 10 c = None.
Proof.
  destruct c as [[] [] [] [] [] [] [] []]; try discriminate; reflexivity.
Qed.

Lemma parseDigits_tail (ds tail : list ascii) (acc : Z) :
  forallb Str.isDecimalDigit ds = true ->
  tail = [] \/
  (exists c rest, tail = c :: rest /\ Str.isDecimalDigit c = false) ->
  Str.parseDigits 10 (Some acc) (ds ++ tail) =
  Some (foldl (fun a d => a * 10 + (Z.of_nat (nat_of_ascii d) - 48)) acc ds).
Proof.
  revert acc. induction ds as [|d ds IH]; intros acc Hall Htail.
  - destruct Htail as [-> | (c & rest & -> & Hc)]; [done |].
    cbn [app Str.parseDigits foldl]. by rewrite not_digit_digitValue.
  - simpl in Hall. apply andb_true_iff in Hall as [Hd Hall].
    cbn [app Str.parseDigits foldl].
    destruct (isDecimalDigit_digitValue d Hd) as (-> & _).
    by apply IH.
Qed.

(** What [parseInt] reads from white space, decimal digits and a rest that
    is empty or starts with a character that is no digit and neither [x]
    nor [X]: the number that the digits denote. *)
Lemma parseIntL_digits_then_text (spaces ds tail : list ascii) :
  forallb Str.isWhiteSpace spaces = true ->
  Str.isDigits ds = true ->
  tail = [] \/
  (exists c rest,
      tail = c :: rest /\ Str.isDecimalDigit c = false /\
      c <> "x"%char /\ c <> "X"%char) ->
  Str.parseIntL (spaces ++ ds ++ tail) = Some (Str.decimalValue ds).
Proof.
  intros Hspaces Hds Htail. unfold Str.parseIntL.
  assert (Htrim : Str.trimStartL (spaces ++ ds ++ tail) =
                  Str.trimStartL (ds ++ tail)).
  { clear -Hspaces. induction spaces as [|w spaces IH]; [done |].
    simpl in Hspaces. apply andb_true_iff in Hspaces as [Hw Hspaces].
    cbn [app Str.trimStartL]. rewrite Hw. by apply IH. }
  rewrite Htrim. clear Htrim Hspaces spaces.
  unfold Str.isDigits in Hds. destruct ds as [|d ds]; [done |].
  pose proof Hds as Hall. simpl in Hall.
  apply andb_true_iff in Hall as [Hd Hrest].
  destruct (isDecimalDigit_digitValue d Hd)
    as (Hval & Hws & Hminus & Hplus & _).
  cbn [app Str.trimStartL]. rewrite Hws.
  assert (Hsign :
    match d :: ds ++ tail with
    | "-"%char :: s' => (-1, s')
    | "+"%char :: s' => (1, s')
    | _ => (1, d :: ds ++ tail)
    end = (1, d :: ds ++ tail)).
  { destruct d as [[] [] [] [] [] [] [] []]; try reflexivity; congruence. }
  rewrite Hsign.
  assert (Hradix :
    match d :: ds ++ tail with
    | "0"%char :: "x"%char :: s' => (16, s')
    | "0"%char :: "X"%char :: s' => (16, s')
    | _ => (10, d :: ds ++ tail)
    end = (10, d :: ds ++ tail)).
  { assert (Hnext : ds ++ tail = [] \/
      exists c' t, ds ++ tail = c' :: t /\ c' <> "x"%char /\ c' <> "X"%char).
    { destruct ds as [|d' ds].
      - destruct Htail as [-> | (c & rest & -> & _ & ? & ?)];
          [by left | right; by exists c, rest].
      - right. simpl in Hrest. apply andb_true_iff in Hrest as [Hd' _].
        destruct (isDecimalDigit_digitValue d' Hd')
          as (_ & _ & _ & _ & ? & ?).
        by exists d', (ds ++ tail). }
    destruct Hnext as [-> | (c' & t & -> & Hnx & HnX)].
    - destruct d as [[] [] [] [] [] [] [] []]; reflexivity.
    - destruct d as [[] [] [] [] [] [] [] []]; try reflexivity;
        destruct c' as [[] [] [] [] [] [] [] []]; try reflexivity;
        congruence. }
  rewrite Hradix. cbn [Str.parseDigits]. rewrite Hval.
  rewrite parseDigits_tail; [| done |].
  - unfold Str.decimalValue. cbn [foldl]. by rewrite Z.mul_1_l.
  - destruct Htail as [-> | (c & rest & -> & Hc & _)];
      [by left | right; by exists c, rest].
Qed.

Lemma characterAt_digits_then_text allCharacters
  (spaces ds tail : list ascii) :
  forallb Str.isWhiteSpace spaces = true ->
  Str.isDigits ds = true ->
  tail = [] \/
  (exists c rest,
      tail = c :: rest /\ Str.isDecimalDigit c = false /\
      c <> "x"%char /\ c <> "X"%char) ->
  characterAt allCharacters (Str.of_chars (spaces ++ ds ++ tail)) =
  allCharacters !! Z.to_nat (Str.decimalValue ds).
Proof.
  intros Hspaces Hds Htail. unfold characterAt, Str.parseInt.
  rewrite String.list_ascii_of_string_of_list_ascii.
  rewrite parseIntL_digits_then_text by done.
  pose proof (decimalValue_nonneg ds) as Hnn.
  unfold Str.isDigits in Hds. destruct ds; [done |].
  specialize (Hnn Hds). by rewrite (proj2 (Z.leb_le _ _) Hnn).
Qed.

Lemma characterAt_Some allCharacters (charIndex : string) (char : Character) :
  characterAt allCharacters charIndex = Some char <->
  exists n, Str.parseInt charIndex = Some n /\ 0 <= n /\
            allCharacters !! Z.to_nat n = Some char.
Proof.
  unfold characterAt. destruct (Str.parseInt charIndex) as [n|].
  - destruct (Z.leb_spec 0 n) as [Hle | Hlt].
    + split; [intros H; by exists n |].
      by intros (n' & [= <-] & _ & H).
    + split; [done |]. intros (n' & [= <-] & ? & _). lia.
  - split; [done |]. by intros (n & ? & _).
Qed.

(** C6, as the code has it. Resolving the selected characters never
    raises: the list [characters] of the template context is, in the order
    of the selected indexes, the characters at the indexes that resolve.
    An index is read by [parseInt]; it is skipped exactly when [parseInt]
    finds no number at its start, or finds a negative one, or one that is
    not below the number of characters, and it resolves to the character
    at the number that [parseInt] finds otherwise. A string of decimal
    digits is read as the number it denotes, and so is a string of white
    space, decimal digits and then any text that starts with a character
    other than a digit, [x] and [X]: it resolves to the character at that
    number when there is one and is skipped when there is none. *)
Theorem characters_are_the_resolved_indexes p (processedUserPrompt : string) :
  td_characters (templateDataOf disable host p processedUserPrompt) =
    omap (characterAt (allCharacters p))
      (selectedCharacterIndexes (session p)) /\
  (forall charIndex,
      characterAt (allCharacters p) charIndex = None <->
      Str.parseInt charIndex = None \/
      exists n, Str.parseInt charIndex = Some n /\
                (n < 0 \/ Z.of_nat (length (allCharacters p)) <= n)) /\
  (forall charIndex,
      Str.isDigits (Str.chars charIndex) = true ->
      characterAt (allCharacters p) charIndex =
      allCharacters p !! Z.to_nat (Str.decimalValue (Str.chars charIndex))) /\
  (forall charIndex char,
      characterAt (allCharacters p) charIndex = Some char <->
      exists n, Str.parseInt charIndex = Some n /\ 0 <= n /\
                allCharacters p !! Z.to_nat n = Some char) /\
  (forall spaces ds tail : list ascii,
      forallb Str.isWhiteSpace spaces = true ->
      Str.isDigits ds = true ->
      tail = [] \/
      (exists c rest,
          tail = c :: rest /\ Str.isDecimalDigit c = false /\
          c <> "x"%char /\ c <> "X"%char) ->
      characterAt (allCharacters p) (Str.of_chars (spaces ++ ds ++ tail)) =
      allCharacters p !! Z.to_nat (Str.decimalValue ds)).
Proof.
  split; [| split; [| split; [| split]]].
  - apply charactersData_omap.
  - intros charIndex. apply characterAt_None.
  - intros charIndex Hdigits.
    unfold characterAt. rewrite parseInt_digits by done.
    pose proof (decimalValue_nonneg (Str.chars charIndex)) as Hnn.
    unfold Str.isDigits in Hdigits.
    destruct (Str.chars charIndex); [done |].
    specialize (Hnn Hdigits). by rewrite (proj2 (Z.leb_le _ _) Hnn).
  - intros charIndex char. apply characterAt_Some.
  - intros spaces ds tail. apply characterAt_digits_then_text.
Qed.

(** C9. The field specific instructions of the template context are the
    prompt of the draft field named by the target field when there is one
    with a prompt, and the prompt of the fixed field of that name
    otherwise; a draft field therefore wins over a fixed field of the same
    name. *)
Theorem draft_prompt_takes_precedence p (processedUserPrompt : string) :
  let instructions :=
    td_fieldSpecificInstructions
      (templateDataOf disable host p processedUserPrompt) in
  (forall draftField text,
      draftFields (session p) !! targetField p = Some draftField ->
      prompt draftField = Some text ->
      instructions = Some text) /\
  (draftFields (session p) !! targetField p = None \/
   (exists draftField,
       draftFields (session p) !! targetField p = Some draftField /\
       prompt draftField = None) ->
   instructions = promptOf (fields (session p) !! targetField p)).
Proof.
  cbv zeta. cbn [templateDataOf td_fieldSpecificInstructions].
  unfold fieldSpecificInstructions. split.
  - intros draftField text -> Hprompt. simpl. by rewrite Hprompt.
  - intros [-> | (draftField & -> & Hprompt)]; simpl; [done |].
    by rewrite Hprompt.
Qed.

End TemplateContext.

(** ** The properties on the concrete host *)

(** [not_listed Hin]: the membership [Hin] in a literal list is refuted
    element by element. *)
Ltac not_listed Hin :=
  repeat (apply elem_of_cons in Hin as [? | Hin]; [subst; discriminate |]);
  by apply elem_of_nil in Hin.

Lemma placeholder_protection_round_trip_witness :
  Str.includes "Hi {{user}}, I am {{char}}." "{{char}}" = true /\
  exists final,
    mainContextStep Example.host Example.data Example.baseMessages
      Example.prompts [] Example.greeting =
    inr ([] ++ [ {| role := "user"; content := final |} ]) /\
    final = substituteProtected (stubSubstituteParams "Bob" "Alice")
              "Hi {{user}}, I am {{char}}." /\
    Str.includes final "{{char}}" = true.
Proof.
  split; [reflexivity |].
  apply (placeholder_protection_round_trip Example.host "Bob" "Alice"
           Example.data Example.baseMessages Example.prompts []
           Example.greeting
           {| prompt_content := "Hi {{user}}, I am {{char}}." |}
           "Hi {{user}}, I am {{char}}." "{{char}}");
    [reflexivity | discriminate | reflexivity | reflexivity
    | right; reflexivity | reflexivity].
Defined.

Lemma chat_history_only_is_base_output_witness :
  exists sent,
    fst (runCharacterFieldGeneration fst Example.host
           (Example.request "p1" [Example.history])) =
      [ CallBuildPrompt "openai" tt; CallSendRequest "p1" sent 300 ] /\
    sentMessages
      (fst (runCharacterFieldGeneration fst Example.host
              (Example.request "p1" [Example.history]))) = [sent] /\
    length sent = length Example.baseMessages /\
    map role sent = map base_role Example.baseMessages /\
    map content sent = map base_content Example.baseMessages /\
    (forall i m,
        Example.baseMessages !! i = Some m ->
        sent !! i = Some {| role := base_role m; content := base_content m |}).
Proof.
  apply (chat_history_only_is_base_output fst Example.host
           (Example.request "p1" [Example.history])
           {| id := "p1"; api := Some "openai"; name := "Main" |}
           "openai" "assistant" Example.baseMessages);
    [discriminate | reflexivity | reflexivity | discriminate
    | reflexivity | reflexivity].
Defined.

Lemma profile_errors_before_any_call_witness :
  runCharacterFieldGeneration fst Example.host
    (Example.request "" [Example.greeting; Example.history]) =
  ([], inl (Error "No connection profile selected.")) /\
  runCharacterFieldGeneration fst Example.host
    (Example.request "p9" [Example.greeting; Example.history]) =
  ([], inl (Error (notFoundMessage "p9"))).
Proof.
  split.
  - apply (proj1 (profile_errors_before_any_call fst Example.host
                    (Example.request "" [Example.greeting; Example.history]))).
    reflexivity.
  - apply (proj2 (profile_errors_before_any_call fst Example.host
                    (Example.request "p9"
                       [Example.greeting; Example.history]))).
    + discriminate.
    + intros cm ps profile [= <-] [= <-] Hin.
      not_listed Hin.
Defined.

(** C4, at a profile whose [api] the API map does not know. The profile
    [p2] is found and its [api] is [mystery], which is no key of
    [CONNECT_API_MAP]: the call fails before any host call, but with the
    [TypeError] of reading [selected] from [undefined], not with the error
    of line 95 that the profiles without an [api] get. *)
Theorem unknown_api_raises_type_error :
  findProfile Example.host "p2" =
    Some {| id := "p2"; api := Some "mystery"; name := "Odd" |} /\
  CONNECT_API_MAP Example.host !! "mystery" = None /\
  runCharacterFieldGeneration fst Example.host
    (Example.request "p2" [Example.greeting]) =
  ([], inl (TypeError "selected")) /\
  runCharacterFieldGeneration fst Example.host
    (Example.request "p2" [Example.greeting]) <>
  ([], inl (Error (noApiMessage "Odd"))) /\
  runCharacterFieldGeneration fst Example.host
    (Example.request "p3" [Example.greeting]) =
  ([], inl (Error (noApiMessage "Bare"))) /\
  runCharacterFieldGeneration fst Example.host
    (Example.request "p4" [Example.greeting]) =
  ([], inl (Error (noApiMessage "Idle"))).
Proof.
  repeat split; try reflexivity. discriminate.
Qed.

Lemma lorebooks_hold_selected_enabled_witness :
  td_lorebooks Example.data !! "lore" = Some [(false, "on")] /\
  td_lorebooks Example.data !! "dark" = None /\
  td_lorebooks Example.data !! "far" = None.
Proof.
  split; [| split].
  - destruct (lorebooks_hold_selected_enabled fst Example.host
                (Example.request "p1" []) "" "lore") as (Hkey & Hval & _).
    apply (Hval [(true, "off"); (false, "on")]); [reflexivity |].
    apply Hkey; [discriminate |]. exists [(true, "off"); (false, "on")].
    split; [reflexivity |]. split; [discriminate |].
    split; [by left |]. exists (false, "on"). split; [| reflexivity].
    right. by left.
  - destruct (lorebooks_hold_selected_enabled fst Example.host
                (Example.request "p1" []) "" "dark") as (_ & _ & Hoff & _).
    apply (Hoff [(true, "gone")]); [reflexivity |].
    by apply Forall_singleton.
  - destruct (lorebooks_hold_selected_enabled fst Example.host
                (Example.request "p1" []) "" "far") as (_ & _ & _ & Hsel).
    apply Hsel. intros Hin.
    not_listed Hin.
Defined.

(** C6, as the spec states it, fails on the index [1abc]: it is not the
    string form of an integer, and it is not skipped but read as 1. *)
Lemma malformed_index_is_not_skipped :
  Str.isIntegerString "1abc" = false /\
  characterAt ["Ann"; "Ben"] "1abc" = Some "Ben" /\
  charactersData ["Ann"; "Ben"] ["1abc"] = ["Ben"] /\
  ~ (forall (allCharacters : list string) (charIndex : string),
        Str.isIntegerString charIndex = false ->
        characterAt allCharacters charIndex = None).
Proof.
  repeat split; try reflexivity.
  intros Hclaim. specialize (Hclaim ["Ann"; "Ben"] "1abc" eq_refl).
  discriminate Hclaim.
Qed.

Lemma characters_are_the_resolved_indexes_witness :
  td_characters Example.data = ["Ben"; "Ann"] /\
  characterAt ["Ann"; "Ben"] "1abc" = Some "Ben" /\
  characterAt ["Ann"; "Ben"] "2" = None.
Proof.
  destruct (characters_are_the_resolved_indexes fst Example.host
              (Example.request "p1" []) "")
    as (Hlist & Hskip & _ & _ & Htext).
  split; [| split].
  - etrans; [exact Hlist | reflexivity].
  - apply (Htext [] (Str.chars "1") (Str.chars "abc"));
      [reflexivity | reflexivity |].
    right. exists "a"%char, (Str.chars "bc").
    repeat split; (reflexivity || discriminate).
  - apply (Hskip "2"). right. exists 2. split; [reflexivity |].
    right. simpl. lia.
Defined.

Lemma missing_template_is_skipped_witness :
  mainContextStep Example.host Example.data Example.baseMessages
    Example.prompts [] Example.missing = inr [] /\
  assembleMessages Example.host Example.data Example.baseMessages
    Example.prompts ([Example.greeting] ++ Example.missing :: [Example.history]) =
  assembleMessages Example.host Example.data Example.baseMessages
    Example.prompts ([Example.greeting] ++ [Example.history]).
Proof.
  destruct (missing_template_is_skipped Example.host Example.data
              Example.baseMessages Example.prompts [Example.greeting]
              [Example.history] Example.missing) as [Hstep Hlist];
    [discriminate | reflexivity | intros Hin; not_listed Hin |].
  split; [apply Hstep | apply Hlist].
Defined.

Lemma no_empty_template_message_witness :
  mainContextStep Example.host Example.data Example.baseMessages
    Example.prompts [] Example.blank = inr [] /\
  Forall (fun m => m ∈ chatHistoryOf Example.baseMessages \/ content m <> "")
    [ {| role := "user"; content := "Hi {{user}}, I am {{char}}." |};
      {| role := "system"; content := "You are {{char}}." |};
      {| role := "user"; content := "" |} ].
Proof.
  destruct (no_empty_template_message fst Example.host)
    as (Hstep & Hall & _).
  split.
  - apply (Hstep Example.data Example.baseMessages Example.prompts []
             Example.blank {| prompt_content := "" |} "");
      [discriminate | reflexivity | reflexivity].
  - apply (Hall Example.data Example.baseMessages Example.prompts
             [Example.greeting; Example.blank; Example.history]).
    reflexivity.
Defined.

Lemma draft_prompt_takes_precedence_witness :
  fields Example.theSession !! "description" =
    Some {| prompt := Some "fixed text"; value := "";
            label := "Description" |} /\
  td_fieldSpecificInstructions Example.data = Some "draft text".
Proof.
  split; [reflexivity |].
  destruct (draft_prompt_takes_precedence fst Example.host
              (Example.request "p1" []) "") as [Hdraft _].
  apply (Hdraft {| prompt := Some "draft text"; value := ""; label := "Mood" |});
    reflexivity.
Defined.

Lemma chat_history_bypasses_processing_witness :
  assembleMessages Example.host Example.data Example.baseMessages
    Example.prompts [Example.history; Example.history] =
  inr [ {| role := "system"; content := "You are {{char}}." |};
        {| role := "user"; content := "" |};
        {| role := "system"; content := "You are {{char}}." |};
        {| role := "user"; content := "" |} ].
Proof.
  destruct (chat_history_bypasses_processing Example.host Example.data
              Example.baseMessages Example.prompts) as (_ & Hlist & _).
  apply (Hlist [Example.history; Example.history]).
  repeat constructor.
Defined.

(** C5, at a world named [__proto__]. The world has an enabled entry and is
    selected, like the world [lore] beside it, but the assignment of line
    136 under that name sets the prototype of the object and adds no key:
    [lore] is a key of [lorebooks] and [__proto__] is not. *)
Theorem proto_world_is_no_key :
  entriesGroupByWorldName More.protoRequest !! "__proto__" =
    Some [(false, "hidden")] /\
  "__proto__" ∈ selectedWorldNames (session More.protoRequest) /\
  td_lorebooks (templateDataOf fst Example.host More.protoRequest "")
    !! "__proto__" = None /\
  td_lorebooks (templateDataOf fst Example.host More.protoRequest "")
    !! "lore" = Some [(false, "on")].
Proof.
  split; [reflexivity |]. split; [by left |]. split; reflexivity.
Qed.

(** C7, at an entry named [toString]. The prompt settings have no template
    of that name, but line 172 finds the method that every object inherits,
    the test of line 173 lets it pass, and the template engine raises on
    its missing [content]: the entry is not skipped, the entries around it
    are lost with it, and the request service is not called. *)
Theorem inherited_template_name_is_not_skipped :
  Example.prompts !! "toString" = None /\
  mainContextStep Example.host Example.data Example.baseMessages
    Example.prompts [] More.inherited =
    inl (compileUndefined Example.host) /\
  assembleMessages Example.host Example.data Example.baseMessages
    Example.prompts [Example.greeting; More.inherited; Example.history] =
    inl (compileUndefined Example.host) /\
  runCharacterFieldGeneration fst Example.host
    (Example.request "p1" [Example.greeting; More.inherited; Example.history])
  = ([CallBuildPrompt "openai" tt], inl (compileUndefined Example.host)).
Proof.
  repeat split; reflexivity.
Qed.

(** ** More on the scan of [replaceAll] *)

Section ReplaceAllMore.
Import Str.
Implicit Types pat rep q s a b x : list ascii.

Lemma replaceAllL_id pat rep x :
  pat <> [] -> includesL pat x = false -> replaceAllL pat rep x = x.
Proof.
  intros Hne. induction x as [|c x IH]; intros Hno.
  - by apply replaceAllL_nil.
  - simpl in Hno. apply orb_false_iff in Hno as [Hp Hrest].
    apply startsWithL_false in Hp.
    rewrite replaceAllL_miss by done. f_equal. by apply IH.
Qed.

Lemma no_overlap_agree_left q rep d :
  no_overlap q rep = true -> (d < length q)%nat ->
  agree (drop d q) rep = false.
Proof.
  unfold no_overlap. intros Hno Hd.
  apply andb_true_iff in Hno as [Hno _].
  rewrite forallb_forall in Hno. apply negb_true_iff, Hno, in_seq. lia.
Qed.

Lemma border_free_agree q d :
  border_free q = true -> (1 <= d)%nat -> (d < length q)%nat ->
  agree (drop d q) q = false.
Proof.
  unfold border_free. intros Hbf H1 Hd.
  rewrite forallb_forall in Hbf. apply negb_true_iff, Hbf, in_seq. lia.
Qed.

(** A prefix of the result that no replacement can be part of was a prefix
    of the text. *)
Lemma prefix_reflect_drop pat rep q x k :
  pat <> [] ->
  (forall d, (k <= d)%nat -> (d < length q)%nat ->
             agree (drop d q) rep = false) ->
  drop k q `prefix_of` replaceAllL pat rep x -> drop k q `prefix_of` x.
Proof.
  intros Hne. revert k. induction x as [|c x IH]; intros k Hag Hp.
  - by rewrite replaceAllL_nil in Hp.
  - destruct (decide (k < length q)%nat) as [Hk | Hk];
      [| rewrite drop_ge by lia; apply prefix_nil].
    destruct (decide (pat `prefix_of` (c :: x))) as [Hhit | Hmiss].
    + rewrite replaceAllL_hit in Hp by done.
      pose proof (Hag k (le_n _) Hk) as Hk'.
      rewrite (agree_of_prefixes _ _ _ Hp) in Hk'; [done | by eexists].
    + rewrite replaceAllL_miss in Hp by done.
      destruct (lookup_lt_is_Some_2 q k Hk) as [y Hy].
      rewrite (drop_S _ _ _ Hy) in Hp |- *.
      pose proof (prefix_cons_inv_1 _ _ _ _ Hp) as ->.
      apply prefix_cons, (IH (S k)).
      * intros d ? ?. apply Hag; lia.
      * by apply prefix_cons_inv_2 in Hp.
Qed.

Lemma prefix_reflect pat rep q x :
  pat <> [] -> no_overlap q rep = true ->
  q `prefix_of` replaceAllL pat rep x -> q `prefix_of` x.
Proof.
  intros Hne Hno Hp. apply (prefix_reflect_drop pat rep q x 0 Hne).
  - intros d _ Hd. by apply no_overlap_agree_left.
  - exact Hp.
Qed.

Lemma includesL_cons q c x :
  includesL q x = true -> includesL q (c :: x) = true.
Proof. intros H. simpl. rewrite H. apply orb_true_r. Qed.

Lemma includesL_drop q n x :
  includesL q (drop n x) = true -> includesL q x = true.
Proof.
  revert n. induction x as [|c x IH]; intros [|n]; simpl; try done.
  intros H. rewrite (IH n H). apply orb_true_r.
Qed.

Lemma includesL_prefix q x : q `prefix_of` x -> includesL q x = true.
Proof.
  intros H. destruct x; simpl; rewrite (proj2 (startsWithL_true _ _) H); done.
Qed.

(** An occurrence in [a ++ b] starts in [a] or lies in [b]. *)
Lemma includesL_app q a b :
  includesL q (a ++ b) = true ->
  (exists d, (d < length a)%nat /\ q `prefix_of` drop d a ++ b) \/
  includesL q b = true.
Proof.
  induction a as [|c a IH]; simpl; [by right |].
  intros H. apply orb_true_iff in H as [H | H].
  - left. exists 0%nat. split; [lia |]. by apply startsWithL_true.
  - destruct (IH H) as [(d & Hd & Hp) | Hb]; [| by right].
    left. exists (S d). split; [lia | done].
Qed.

(** What occurs in the result and cannot overlap a replacement occurred in
    the text. *)
Lemma replaceAllL_includes_reflect pat rep q x :
  pat <> [] -> no_overlap q rep = true ->
  includesL q (replaceAllL pat rep x) = true -> includesL q x = true.
Proof.
  intros Hne Hno.
  remember (length x) as n eqn:Hn. revert x Hn.
  induction n as [n IH] using lt_wf_ind. intros x Hn Hin.
  destruct x as [|c x]; [by rewrite replaceAllL_nil in Hin |].
  destruct (decide (pat `prefix_of` (c :: x))) as [Hhit | Hmiss].
  - rewrite replaceAllL_hit in Hin by done.
    apply includesL_app in Hin as [(d & Hd & Hp) | Hin].
    + by apply no_overlap_right in Hp.
    + apply (includesL_drop q (length pat)).
      apply (IH (length (drop (length pat) (c :: x)))); [| done | done].
      rewrite length_drop. destruct pat; [done |]. simpl in *. lia.
  - rewrite replaceAllL_miss in Hin by done.
    simpl in Hin. apply orb_true_iff in Hin as [Hp | Hin].
    + apply includesL_prefix.
      apply (prefix_reflect pat rep); [done | done |].
      rewrite replaceAllL_miss by done. by apply startsWithL_true.
    + apply includesL_cons. apply (IH (length x)); [simpl in Hn; lia | done | done].
Qed.

(** Nothing of the search string is left when the replacement cannot
    build it. *)
Lemma replaceAllL_removes pat rep x :
  pat <> [] -> no_overlap pat rep = true ->
  includesL pat (replaceAllL pat rep x) = false.
Proof.
  intros Hne Hno.
  remember (length x) as n eqn:Hn. revert x Hn.
  induction n as [n IH] using lt_wf_ind. intros x Hn.
  destruct x as [|c x].
  - rewrite replaceAllL_nil by done. simpl. rewrite orb_false_r.
    apply startsWithL_false. intros [k Hk]. destruct pat; [done | discriminate].
  - apply not_true_is_false. intros Hin.
    destruct (decide (pat `prefix_of` (c :: x))) as [Hhit | Hmiss].
    + rewrite replaceAllL_hit in Hin by done.
      apply includesL_app in Hin as [(d & Hd & Hp) | Hin].
      * by apply no_overlap_right in Hp.
      * rewrite (IH (length (drop (length pat) (c :: x)))) in Hin; [done | | done].
        rewrite length_drop. destruct pat; [done |]. simpl in *. lia.
    + rewrite replaceAllL_miss in Hin by done.
      simpl in Hin. apply orb_true_iff in Hin as [Hp | Hin].
      * apply Hmiss. apply (prefix_reflect pat rep); [done | done |].
        rewrite replaceAllL_miss by done. by apply startsWithL_true.
      * rewrite (IH (length x)) in Hin; [done | simpl in Hn; lia | done].
Qed.

(** Replacing back undoes the replacement when the text had no occurrence
    of the replacement of its own. *)
Lemma replaceAllL_undo pat rep x :
  pat <> [] -> rep <> [] -> border_free rep = true ->
  includesL rep x = false ->
  replaceAllL rep pat (replaceAllL pat rep x) = x.
Proof.
  intros Hne Hrep Hbf.
  remember (length x) as n eqn:Hn. revert x Hn.
  induction n as [n IH] using lt_wf_ind. intros x Hn Hno.
  destruct x as [|c x]; [by rewrite !replaceAllL_nil |].
  destruct (decide (pat `prefix_of` (c :: x))) as [Hhit | Hmiss].
  - rewrite (replaceAllL_hit pat rep (c :: x)) by done.
    rewrite (replaceAllL_hit rep pat) by (done || by eexists).
    rewrite drop_app_length.
    rewrite (IH (length (drop (length pat) (c :: x)))); [| | done |].
    + destruct Hhit as [k Hk]. rewrite Hk.
      by rewrite drop_app_length.
    + rewrite length_drop. destruct pat; [done |]. simpl in *. lia.
    + apply not_true_is_false. intros H.
      apply includesL_drop in H. congruence.
  - rewrite (replaceAllL_miss pat rep c x) by done.
    assert (Hx : includesL rep x = false).
    { apply not_true_is_false. intros H.
      apply (includesL_cons _ c) in H. congruence. }
    rewrite replaceAllL_miss; [| done |].
    + f_equal. apply (IH (length x)); [simpl in Hn; lia | done | done].
    + intros Hp. destruct rep as [|r rep']; [done |].
      pose proof (prefix_cons_inv_1 _ _ _ _ Hp) as ->.
      apply prefix_cons_inv_2 in Hp.
      apply (prefix_reflect_drop pat (c :: rep') (c :: rep') x 1 Hne) in Hp.
      * change (drop 1 (c :: rep')) with rep' in Hp.
        apply (prefix_cons c) in Hp. apply includesL_prefix in Hp. congruence.
      * intros d ? ?. by apply border_free_agree.
Qed.

Lemma replaceAllL_over pat rep q b :
  pat <> [] -> no_overlap pat q = true ->
  replaceAllL pat rep (q ++ b) = q ++ replaceAllL pat rep b.
Proof. intros Hne Hno. apply (replaceAllL_through pat rep q b 0 Hne Hno). Qed.

(** Two replacements whose search strings and replacements cannot overlap
    can be made in either order. *)
Lemma replaceAllL_comm p1 r1 p2 r2 x :
  p1 <> [] -> p2 <> [] ->
  no_overlap p1 p2 = true -> no_overlap p2 p1 = true ->
  no_overlap p2 r1 = true -> no_overlap p1 r2 = true ->
  replaceAllL p1 r1 (replaceAllL p2 r2 x) =
  replaceAllL p2 r2 (replaceAllL p1 r1 x).
Proof.
  intros Hne1 Hne2 H12 H21 H2r1 H1r2.
  remember (length x) as n eqn:Hn. revert x Hn.
  induction n as [n IH] using lt_wf_ind. intros x Hn.
  destruct x as [|c x]; [by rewrite !replaceAllL_nil |].
  assert (Hshort : forall (p k : list ascii), p <> [] -> c :: x = p ++ k ->
    (length k < n)%nat).
  { intros p k Hp Hk. apply (f_equal length) in Hk.
    rewrite length_app in Hk. destruct p; [done |]. simpl in *. lia. }
  destruct (decide (p1 `prefix_of` (c :: x))) as [[k Hk] | Hmiss1].
  - rewrite Hk.
    rewrite (replaceAllL_over p2 r2 p1 k Hne2 H21).
    rewrite (replaceAllL_hit p1 r1 (p1 ++ replaceAllL p2 r2 k))
      by (done || by eexists).
    rewrite (replaceAllL_hit p1 r1 (p1 ++ k)) by (done || by eexists).
    rewrite !drop_app_length.
    rewrite (replaceAllL_over p2 r2 r1 _ Hne2 H2r1). f_equal.
    apply (IH (length k)); [by apply (Hshort p1) | done].
  - destruct (decide (p2 `prefix_of` (c :: x))) as [[k Hk] | Hmiss2].
    + rewrite Hk.
      rewrite (replaceAllL_over p1 r1 p2 k Hne1 H12).
      rewrite (replaceAllL_hit p2 r2 (p2 ++ replaceAllL p1 r1 k))
        by (done || by eexists).
      rewrite (replaceAllL_hit p2 r2 (p2 ++ k)) by (done || by eexists).
      rewrite !drop_app_length.
      rewrite (replaceAllL_over p1 r1 r2 _ Hne1 H1r2). f_equal.
      apply (IH (length k)); [by apply (Hshort p2) | done].
    + rewrite (replaceAllL_miss p2 r2 c x) by done.
      rewrite (replaceAllL_miss p1 r1 c x) by done.
      rewrite (replaceAllL_miss p1 r1).
      * rewrite (replaceAllL_miss p2 r2).
        -- f_equal. apply (IH (length x)); [simpl in Hn; lia | done].
        -- done.
        -- intros Hp. apply Hmiss2.
           apply (prefix_reflect p1 r1); [done | done |].
           by rewrite replaceAllL_miss.
      * done.
      * intros Hp. apply Hmiss1.
        apply (prefix_reflect p2 r2); [done | done |].
        by rewrite replaceAllL_miss.
Qed.

End ReplaceAllMore.

(** ** The placeholder protection, end to end *)

Lemma replaceAll_id (s pat rep : string) :
  Str.chars pat <> [] -> Str.includes s pat = false ->
  Str.replaceAll s pat rep = s.
Proof.
  intros Hne Hno. unfold Str.replaceAll.
  rewrite replaceAllL_id by done.
  apply String.string_of_list_ascii_of_string.
Qed.

Lemma includes_replaceAll_reflect (s pat rep q : string) :
  Str.chars pat <> [] ->
  Str.no_overlap (Str.chars q) (Str.chars rep) = true ->
  Str.includes (Str.replaceAll s pat rep) q = true ->
  Str.includes s q = true.
Proof.
  unfold Str.includes, Str.replaceAll. intros Hne Hno.
  rewrite String.list_ascii_of_string_of_list_ascii.
  by apply replaceAllL_includes_reflect.
Qed.

Lemma includes_replaceAll_removes (s pat rep : string) :
  Str.chars pat <> [] ->
  Str.no_overlap (Str.chars pat) (Str.chars rep) = true ->
  Str.includes (Str.replaceAll s pat rep) pat = false.
Proof.
  unfold Str.includes, Str.replaceAll. intros Hne Hno.
  rewrite String.list_ascii_of_string_of_list_ascii.
  by apply replaceAllL_removes.
Qed.

Lemma replaceAll_undo (s pat rep : string) :
  Str.chars pat <> [] -> Str.chars rep <> [] ->
  border_free (Str.chars rep) = true ->
  Str.includes s rep = false ->
  Str.replaceAll (Str.replaceAll s pat rep) rep pat = s.
Proof.
  unfold Str.includes, Str.replaceAll. intros Hne Hrep Hbf Hno.
  rewrite String.list_ascii_of_string_of_list_ascii.
  rewrite replaceAllL_undo by done.
  apply String.string_of_list_ascii_of_string.
Qed.

Lemma replaceAll_comm (s p1 r1 p2 r2 : string) :
  Str.chars p1 <> [] -> Str.chars p2 <> [] ->
  Str.no_overlap (Str.chars p1) (Str.chars p2) = true ->
  Str.no_overlap (Str.chars p2) (Str.chars p1) = true ->
  Str.no_overlap (Str.chars p2) (Str.chars r1) = true ->
  Str.no_overlap (Str.chars p1) (Str.chars r2) = true ->
  Str.replaceAll (Str.replaceAll s p2 r2) p1 r1 =
  Str.replaceAll (Str.replaceAll s p1 r1) p2 r2.
Proof.
  unfold Str.replaceAll. intros.
  rewrite !String.list_ascii_of_string_of_list_ascii.
  by rewrite replaceAllL_comm.
Qed.

(** The protected text holds neither token. *)
Lemma protectPlaceholders_has_no_token (content : string) :
  Str.includes (protectPlaceholders content) "{{user}}" = false /\
  Str.includes (protectPlaceholders content) "{{char}}" = false.
Proof.
  unfold protectPlaceholders. split.
  - apply not_true_is_false. intros Hin.
    apply includes_replaceAll_reflect in Hin;
      [| discriminate | vm_compute; reflexivity].
    rewrite includes_replaceAll_removes in Hin;
      [done | discriminate | vm_compute; reflexivity].
  - apply includes_replaceAll_removes; [discriminate | vm_compute; reflexivity].
Qed.

(** Restoring undoes protecting, for a text without the placeholders. *)
Lemma restore_protect (content : string) :
  Str.includes content userPlaceHolder = false ->
  Str.includes content charPlaceHolder = false ->
  restorePlaceholders (protectPlaceholders content) = content.
Proof.
  intros Huser Hchar. unfold restorePlaceholders, protectPlaceholders.
  rewrite (replaceAll_comm _ userPlaceHolder "{{user}}" "{{char}}"
             charPlaceHolder);
    try discriminate; try (vm_compute; reflexivity).
  rewrite (replaceAll_undo content "{{user}}" userPlaceHolder);
    try discriminate; try (vm_compute; reflexivity); [| done].
  apply (replaceAll_undo content "{{char}}" charPlaceHolder);
    try discriminate; try (vm_compute; reflexivity); done.
Qed.

Lemma stubSubstituteParams_without_tokens (userName charName text : string) :
  Str.includes text "{{user}}" = false ->
  Str.includes text "{{char}}" = false ->
  stubSubstituteParams userName charName text = text.
Proof.
  intros Huser Hchar. unfold stubSubstituteParams.
  rewrite (replaceAll_id text "{{user}}") by (discriminate || done).
  by rewrite replaceAll_id by (discriminate || done).
Qed.

(** X1. With a host substitution that changes nothing but the tokens
    [{{user}}] and [{{char}}], lines 180 to 184 return the rendered text as
    it is, whichever tokens it holds, as long as it does not hold the text
    of a placeholder itself. *)
Theorem substituteProtected_is_identity (subst : string -> string)
  (rendered : string) :
  (forall text,
      Str.includes text "{{user}}" = false ->
      Str.includes text "{{char}}" = false -> subst text = text) ->
  Str.includes rendered userPlaceHolder = false ->
  Str.includes rendered charPlaceHolder = false ->
  substituteProtected subst rendered = rendered.
Proof.
  intros Hsubst Huser Hchar.
  change (substituteProtected subst rendered)
    with (restorePlaceholders (subst (protectPlaceholders rendered))).
  destruct (protectPlaceholders_has_no_token rendered) as [Hu Hc].
  rewrite (Hsubst _ Hu Hc). by apply restore_protect.
Qed.

(** X2. Whatever the rendered text is, the text handed to the host
    substitution contains neither [{{user}}] nor [{{char}}]: the host can
    expand no token of a template. *)
Theorem host_substitution_sees_no_token (subst : string -> string)
  (rendered : string) :
  substituteProtected subst rendered =
    restorePlaceholders (subst (protectPlaceholders rendered)) /\
  Str.includes (protectPlaceholders rendered) "{{user}}" = false /\
  Str.includes (protectPlaceholders rendered) "{{char}}" = false.
Proof.
  split; [reflexivity | apply protectPlaceholders_has_no_token].
Qed.

(** X3. A rendered text that holds the text of a placeholder itself comes
    out with the token in its place: the placeholder is not told apart from
    a protected token. *)
Theorem placeholder_text_becomes_token (userName charName : string)
  (rendered placeHolder token : string) :
  (placeHolder = userPlaceHolder /\ token = "{{user}}") \/
  (placeHolder = charPlaceHolder /\ token = "{{char}}") ->
  Str.includes rendered placeHolder = true ->
  Str.includes
    (substituteProtected (stubSubstituteParams userName charName) rendered)
    token = true.
Proof.
  intros Hcase Hin. unfold substituteProtected.
  destruct Hcase as [[-> ->] | [-> ->]].
  - keep_token. hit_token.
    apply stubSubstituteParams_keeps; [by left |].
    do 2 keep_token. exact Hin.
  - hit_token. keep_token.
    apply stubSubstituteParams_keeps; [by right |].
    do 2 keep_token. exact Hin.
Qed.

(** ** The call, from the checks to the parsed response *)

Section RunOutcomes.
Context {Character WIEntry BuildPromptOptions Extra : Type}.
Context (disable : WIEntry -> bool).
Context (host : @Host Character WIEntry BuildPromptOptions Extra).
Implicit Types (p : @RunCharacterFieldGenerationParams Character WIEntry
                      BuildPromptOptions).
Implicit Types (templateData : @TemplateData Character WIEntry).
Implicit Types (chatMessages : list (@BaseMessage Extra)).
Implicit Types (promptSettings : gmap string PromptSetting).
Implicit Types (messages : list Message) (mainContext : MainContext).

(** A step looks at the array only to push to it. *)
Lemma mainContextStep_acc templateData chatMessages promptSettings messages
  mainContext :
  mainContextStep host templateData chatMessages promptSettings messages
    mainContext =
  match mainContextStep host templateData chatMessages promptSettings []
          mainContext with
  | inl e => inl e
  | inr new => inr (messages ++ new)
  end.
Proof.
  unfold mainContextStep. case_bool_decide; [done |].
  destruct (getProperty promptSettings _) as [prompt| |];
    [| done | by rewrite app_nil_r].
  destruct (render host _ _) as [e | rendered]; [done |]. simpl.
  destruct (Str.truthy _); [done | by rewrite app_nil_r].
Qed.

Lemma forOf_mainContextStep_acc templateData chatMessages promptSettings
  (l : list MainContext) messages :
  forOf (mainContextStep host templateData chatMessages promptSettings) l
    messages =
  match forOf (mainContextStep host templateData chatMessages promptSettings)
          l [] with
  | inl e => inl e
  | inr new => inr (messages ++ new)
  end.
Proof.
  revert messages. induction l as [|mc l IH]; intros messages; simpl.
  - by rewrite app_nil_r.
  - rewrite mainContextStep_acc.
    destruct (mainContextStep host _ _ _ [] mc) as [e | new]; [done |].
    rewrite IH, (IH new). simpl.
    destruct (forOf _ l []) as [e | rest]; [done |]. by rewrite app_assoc.
Qed.

(** X4. The messages follow the order of the main context list: the list
    assembled for [l1 ++ l2] is the one for [l1] followed by the one for
    [l2]. If [l1] raises, that is the outcome and [l2] is not looked at;
    if only [l2] raises, that is the outcome. *)
Theorem assembleMessages_app templateData chatMessages promptSettings
  (l1 l2 : list MainContext) :
  assembleMessages host templateData chatMessages promptSettings (l1 ++ l2) =
  match assembleMessages host templateData chatMessages promptSettings l1 with
  | inl e => inl e
  | inr m1 =>
      match assembleMessages host templateData chatMessages promptSettings
              l2 with
      | inl e => inl e
      | inr m2 => inr (m1 ++ m2)
      end
  end.
Proof.
  unfold assembleMessages. rewrite forOf_app.
  destruct (forOf _ l1 []) as [e | m1]; [done |].
  by rewrite forOf_mainContextStep_acc.
Qed.

(** What a request that passes the checks of lines 83 to 96 does. *)
Lemma run_after_checks p (profile : Profile) (theApi : string) :
  profileId p <> "" ->
  findProfile host (profileId p) = Some profile ->
  selectedApiOf host profile = inr (Some theApi) ->
  theApi <> "" ->
  runCharacterFieldGeneration disable host p =
  match buildPrompt host theApi (buildPromptOptions p) with
  | inl e => ([CallBuildPrompt theApi (buildPromptOptions p)], inl e)
  | inr chatMessages =>
      match assembleMessages host
              (templateDataOf disable host p
                 (substituteParams host (Str.trim (userPrompt p))))
              chatMessages (promptSettings p) (mainContextList p) with
      | inl e => ([CallBuildPrompt theApi (buildPromptOptions p)], inl e)
      | inr messages =>
          ([CallBuildPrompt theApi (buildPromptOptions p);
            CallSendRequest (profileId p) messages (maxResponseToken p)],
           match sendRequest host (profileId p) messages
                   (maxResponseToken p) with
           | inl e => inl e
           | inr response =>
               parseResponse host (response_content response) (outputFormat p)
           end)
      end
  end.
Proof.
  intros Hid Hfind Hapi Htruthy. unfold runCharacterFieldGeneration.
  rewrite (proj2 (truthy_true _) Hid). simpl.
  rewrite Hfind, Hapi. simpl. rewrite (proj2 (truthy_true _) Htruthy).
  destruct (buildPrompt host _ _) as [e | chatMessages]; [done |]. simpl.
  destruct (assembleMessages _ _ _ _ _) as [e | messages]; [done |]. simpl.
  by destruct (sendRequest host _ _ _) as [e | response].
Qed.

(** X5. When the base prompt builder fails, the call fails with the
    builder's exception, and the request service is not called. *)
Theorem builder_failure_propagates p (profile : Profile) (theApi : string)
  (e : Exn) :
  profileId p <> "" ->
  findProfile host (profileId p) = Some profile ->
  selectedApiOf host profile = inr (Some theApi) ->
  theApi <> "" ->
  buildPrompt host theApi (buildPromptOptions p) = inl e ->
  runCharacterFieldGeneration disable host p =
    ([CallBuildPrompt theApi (buildPromptOptions p)], inl e) /\
  sentMessages (fst (runCharacterFieldGeneration disable host p)) = [].
Proof.
  intros Hid Hfind Hapi Htruthy Hbuild.
  rewrite (run_after_checks p profile theApi) by done.
  by rewrite Hbuild.
Qed.

(** X6. When a template of the main context list fails to render, and the
    entries before it went through, the call fails with the exception of
    the template engine: the entries after it are not looked at, the
    messages assembled so far are dropped, and the request service is not
    called. *)
Theorem render_failure_propagates p (profile : Profile) (theApi : string)
  (chatMessages : list (@BaseMessage Extra))
  (before after : list MainContext) (mainContext : MainContext)
  (prompt : PromptSetting) (soFar : list Message) (e : Exn) :
  let templateData :=
    templateDataOf disable host p
      (substituteParams host (Str.trim (userPrompt p))) in
  profileId p <> "" ->
  findProfile host (profileId p) = Some profile ->
  selectedApiOf host profile = inr (Some theApi) ->
  theApi <> "" ->
  buildPrompt host theApi (buildPromptOptions p) = inr chatMessages ->
  mainContextList p = before ++ mainContext :: after ->
  assembleMessages host templateData chatMessages (promptSettings p) before =
    inr soFar ->
  promptName mainContext <> "chatHistory" ->
  promptSettings p !! promptName mainContext = Some prompt ->
  render host (prompt_content prompt) templateData = inl e ->
  runCharacterFieldGeneration disable host p =
    ([CallBuildPrompt theApi (buildPromptOptions p)], inl e) /\
  sentMessages (fst (runCharacterFieldGeneration disable host p)) = [].
Proof.
  intros templateData Hid Hfind Hapi Htruthy Hbuild Hlist Hbefore Hname Hsome
    Hrender.
  rewrite (run_after_checks p profile theApi) by done.
  rewrite Hbuild, Hlist. fold templateData.
  unfold assembleMessages in *. rewrite forOf_app, Hbefore.
  cbn [forOf]. unfold mainContextStep.
  rewrite bool_decide_eq_false_2 by done.
  by rewrite (getProperty_Own _ _ _ Hsome), Hrender.
Qed.

(** X7. When the checks pass, the builder returns and the messages are
    assembled, the request service is called once, with the profile id, the
    assembled messages and the token budget of the request; the call
    returns what [parseResponse] makes of the content of the response in
    the requested format, and fails with the exception of the request
    service when that fails. *)
Theorem response_is_parsed p (profile : Profile) (theApi : string)
  (chatMessages : list (@BaseMessage Extra)) (messages : list Message) :
  profileId p <> "" ->
  findProfile host (profileId p) = Some profile ->
  selectedApiOf host profile = inr (Some theApi) ->
  theApi <> "" ->
  buildPrompt host theApi (buildPromptOptions p) = inr chatMessages ->
  assembleMessages host
    (templateDataOf disable host p
       (substituteParams host (Str.trim (userPrompt p))))
    chatMessages (promptSettings p) (mainContextList p) = inr messages ->
  fst (runCharacterFieldGeneration disable host p) =
    [ CallBuildPrompt theApi (buildPromptOptions p);
      CallSendRequest (profileId p) messages (maxResponseToken p) ] /\
  (forall response,
      sendRequest host (profileId p) messages (maxResponseToken p) =
        inr response ->
      snd (runCharacterFieldGeneration disable host p) =
      parseResponse host (response_content response) (outputFormat p)) /\
  (forall e,
      sendRequest host (profileId p) messages (maxResponseToken p) = inl e ->
      snd (runCharacterFieldGeneration disable host p) = inl e).
Proof.
  intros Hid Hfind Hapi Htruthy Hbuild Hasm.
  rewrite (run_after_checks p profile theApi) by done.
  rewrite Hbuild, Hasm. simpl. split; [done |].
  split; intros ? ->; done.
Qed.

(** X8. Whatever the request is, a call awaits nothing, or only the base
    prompt builder, or the builder and then the request service once, with
    the profile id and the token budget of the request: the service is
    never called twice and never before the builder. *)
Theorem at_most_one_request p :
  fst (runCharacterFieldGeneration disable host p) = [] \/
  (exists theApi,
      fst (runCharacterFieldGeneration disable host p) =
      [CallBuildPrompt theApi (buildPromptOptions p)]) \/
  (exists theApi messages,
      fst (runCharacterFieldGeneration disable host p) =
      [ CallBuildPrompt theApi (buildPromptOptions p);
        CallSendRequest (profileId p) messages (maxResponseToken p) ]).
Proof.
  unfold runCharacterFieldGeneration.
  destruct (Str.truthy (profileId p)); simpl; [| by left].
  destruct (findProfile host (profileId p)) as [profile|]; simpl; [| by left].
  destruct (selectedApiOf host profile) as [e | [theApi|]];
    simpl; try by left.
  destruct (Str.truthy theApi); simpl; [| by left].
  destruct (buildPrompt host theApi (buildPromptOptions p))
    as [e | chatMessages]; simpl; [right; left; by exists theApi |].
  destruct (assembleMessages _ _ _ _ _) as [e | messages];
    simpl; [right; left; by exists theApi |].
  right. right. exists theApi, messages.
  by destruct (sendRequest host _ _ _) as [e | response].
Qed.

(** X9. A call returns a string only as the output of [parseResponse] for
    the content of a response that the request service gave for the
    assembled messages; without such a response there is no value. *)
Theorem value_comes_from_the_response p (text : string) :
  snd (runCharacterFieldGeneration disable host p) = inr text ->
  exists theApi messages response,
    fst (runCharacterFieldGeneration disable host p) =
      [ CallBuildPrompt theApi (buildPromptOptions p);
        CallSendRequest (profileId p) messages (maxResponseToken p) ] /\
    sendRequest host (profileId p) messages (maxResponseToken p) =
      inr response /\
    parseResponse host (response_content response) (outputFormat p) =
      inr text.
Proof.
  unfold runCharacterFieldGeneration.
  destruct (Str.truthy (profileId p)); simpl; [| done].
  destruct (findProfile host (profileId p)) as [profile|]; simpl; [| done].
  destruct (selectedApiOf host profile) as [e | [theApi|]]; simpl; try done.
  destruct (Str.truthy theApi); simpl; [| done].
  destruct (buildPrompt host theApi (buildPromptOptions p))
    as [e | chatMessages]; simpl; [done |].
  destruct (assembleMessages _ _ _ _ _) as [e | messages]; simpl; [done |].
  destruct (sendRequest host _ _ _) as [e | response] eqn:Hsend;
    simpl; [done |].
  intros Hparse. by exists theApi, messages, response.
Qed.

(** X10. There is no guard on an empty message list: when the checks pass
    and every entry of the main context list has a name that is neither in
    the prompt settings nor inherited from [Object.prototype] (an empty
    list among them), the request service is called with no message at
    all. *)
Theorem empty_message_list_is_sent p (profile : Profile) (theApi : string)
  (chatMessages : list (@BaseMessage Extra)) :
  profileId p <> "" ->
  findProfile host (profileId p) = Some profile ->
  selectedApiOf host profile = inr (Some theApi) ->
  theApi <> "" ->
  buildPrompt host theApi (buildPromptOptions p) = inr chatMessages ->
  Forall (fun mc => promptName mc <> "chatHistory" /\
                    promptSettings p !! promptName mc = None /\
                    promptName mc ∉ objectPrototypeNames)
    (mainContextList p) ->
  fst (runCharacterFieldGeneration disable host p) =
    [ CallBuildPrompt theApi (buildPromptOptions p);
      CallSendRequest (profileId p) [] (maxResponseToken p) ].
Proof.
  intros Hid Hfind Hapi Htruthy Hbuild Hall.
  rewrite (run_after_checks p profile theApi) by done. rewrite Hbuild.
  assert (Hasm : forall td,
    assembleMessages host td chatMessages (promptSettings p)
      (mainContextList p) = inr []).
  { intros td. unfold assembleMessages.
    induction Hall as [|mc l (Hname & Hnone & Hnot) _ IH]; [done |].
    cbn [forOf]. by rewrite mainContextStep_missing. }
  by rewrite Hasm.
Qed.

(** X11. Among several profiles with the same id, the first of the list is
    the one the call uses. *)
Theorem first_profile_with_the_id_is_used (cm : ConnectionManager)
  (before after : list Profile) (profile : Profile) (profileId : string) :
  connectionManager host = Some cm ->
  profiles cm = Some (before ++ profile :: after) ->
  id profile = profileId ->
  Forall (fun other => id other <> profileId) before ->
  findProfile host profileId = Some profile.
Proof.
  intros Hcm Hps Hid Hbefore. unfold findProfile. rewrite Hcm, Hps.
  clear Hps. induction Hbefore as [|other before Hother _ IH]; simpl.
  - by rewrite bool_decide_eq_true_2.
  - rewrite bool_decide_eq_false_2 by done. exact IH.
Qed.

End RunOutcomes.

(** ** More on the template context *)

Section TemplateContextMore.
Context {Character WIEntry BuildPromptOptions Extra : Type}.
Context (disable : WIEntry -> bool).
Context (host : @Host Character WIEntry BuildPromptOptions Extra).
Implicit Types (p : @RunCharacterFieldGenerationParams Character WIEntry
                      BuildPromptOptions).
Implicit Types (allCharacters : list Character).

Lemma fromEntries_lookup_Some {V : Type} (l : list (string * V))
  (k : string) (v : V) :
  fromEntries l !! k = Some v -> (k, v) ∈ l.
Proof.
  unfold fromEntries.
  enough (Hgen : forall m0 : gmap string V,
    foldl (fun acc kv => <[kv.1 := kv.2]> acc) m0 l !! k = Some v ->
    (k, v) ∈ l \/ m0 !! k = Some v).
  { intros H. destruct (Hgen ∅ H) as [? | Hm]; [done |].
    by rewrite lookup_empty in Hm. }
  induction l as [|[k' v'] l IH]; intros m0; simpl; [by right |].
  intros H. destruct (IH _ H) as [Hin | Hm]; [left; by right |].
  destruct (decide (k' = k)) as [-> | Hne].
  - rewrite lookup_insert_eq in Hm. injection Hm as ->. left. by left.
  - rewrite lookup_insert_ne in Hm by done. by right.
Qed.

Lemma fromEntries_is_Some {V : Type} (l : list (string * V)) (k : string) :
  is_Some (fromEntries l !! k) <-> k ∈ l.*1.
Proof.
  unfold fromEntries.
  enough (Hgen : forall m0 : gmap string V,
    is_Some (foldl (fun acc kv => <[kv.1 := kv.2]> acc) m0 l !! k) <->
    k ∈ l.*1 \/ is_Some (m0 !! k)).
  { rewrite Hgen, lookup_empty. split; [| by left].
    intros [? | H]; [done | by apply is_Some_None in H]. }
  induction l as [|[k' v'] l IH]; intros m0; simpl.
  - split; [by right |]. intros [H | H]; [by apply elem_of_nil in H | done].
  - rewrite IH, elem_of_cons. simpl.
    destruct (decide (k' = k)) as [-> | Hne].
    + rewrite lookup_insert_eq. split; [intros _; by left; left |].
      intros _. right. by eexists.
    + rewrite lookup_insert_ne by done. split.
      * intros [? | ?]; [left; by right | by right].
      * intros [[? | ?] | ?]; [congruence | by left | by right].
Qed.

Lemma fromEntries_NoDup {V : Type} (l : list (string * V)) (k : string)
  (v : V) :
  NoDup l.*1 -> (k, v) ∈ l -> fromEntries l !! k = Some v.
Proof.
  intros Hnd Hin. unfold fromEntries.
  apply (foldl_insert_lookup (fun x : V => x) l ∅ k v Hnd).
  left. by exists v.
Qed.

Lemma labelledValues_spec (fs : gmap string CharacterField) :
  (forall lbl,
      is_Some (labelledValues fs !! lbl) <->
      exists k f, fs !! k = Some f /\ label f = lbl) /\
  (forall lbl v,
      labelledValues fs !! lbl = Some v ->
      exists k f, fs !! k = Some f /\ label f = lbl /\ value f = v) /\
  ((forall k1 k2 f1 f2,
       fs !! k1 = Some f1 -> fs !! k2 = Some f2 ->
       label f1 = label f2 -> k1 = k2) ->
   forall k f, fs !! k = Some f ->
               labelledValues fs !! label f = Some (value f)).
Proof.
  unfold labelledValues. split; [| split].
  - intros lbl. rewrite fromEntries_is_Some, list_elem_of_fmap. split.
    + intros ([lbl' v] & -> & Hin).
      apply list_elem_of_fmap in Hin as ([k f] & [= -> ->] & Hin).
      apply elem_of_map_to_list in Hin. by exists k, f.
    + intros (k & f & Hlook & <-). exists (label f, value f).
      split; [done |]. apply list_elem_of_fmap. exists (k, f).
      split; [done |]. by apply elem_of_map_to_list.
  - intros lbl v Hlook. apply fromEntries_lookup_Some in Hlook.
    apply list_elem_of_fmap in Hlook as ([k f] & [= -> ->] & Hin).
    apply elem_of_map_to_list in Hin. by exists k, f.
  - intros Hdistinct k f Hlook. apply fromEntries_NoDup.
    + change (map ?g ?l) with (g <$> l). rewrite <- list_fmap_compose.
      apply NoDup_fmap_2_strong; [| apply NoDup_map_to_list].
      intros [k1 f1] [k2 f2] H1 H2 Hlab. simpl in Hlab.
      apply elem_of_map_to_list in H1, H2.
      assert (k1 = k2) as -> by (by apply (Hdistinct k1 k2 f1 f2)).
      congruence.
    + apply list_elem_of_fmap. exists (k, f). split; [done |].
      by apply elem_of_map_to_list.
Qed.

(** X12. In the template context, [fields.core] and [fields.draft] are
    keyed by the labels of the fixed and of the draft fields: the keys are
    exactly the labels, every value is the value of a field with that
    label, and when the labels of a mapping are pairwise distinct every
    field is found under its label with its value. *)
Theorem field_values_are_keyed_by_label p (processedUserPrompt : string) :
  let allFields :=
    td_fields (templateDataOf disable host p processedUserPrompt) in
  forall (fs : gmap string CharacterField) (values : gmap string string),
    (fs = fields (session p) /\ values = core allFields) \/
    (fs = draftFields (session p) /\ values = draft allFields) ->
    (forall lbl,
        is_Some (values !! lbl) <->
        exists k f, fs !! k = Some f /\ label f = lbl) /\
    (forall lbl v,
        values !! lbl = Some v ->
        exists k f, fs !! k = Some f /\ label f = lbl /\ value f = v) /\
    ((forall k1 k2 f1 f2,
         fs !! k1 = Some f1 -> fs !! k2 = Some f2 ->
         label f1 = label f2 -> k1 = k2) ->
     forall k f, fs !! k = Some f -> values !! label f = Some (value f)).
Proof.
  intros allFields fs values [[-> ->] | [-> ->]]; apply labelledValues_spec.
Qed.

(** X13. Every list of [lorebooks] in the template context is not empty,
    holds exactly the enabled entries of its world, and belongs to a
    selected world; with no selected world [lorebooks] is empty. *)
Theorem lorebook_lists_are_enabled_and_not_empty p
  (processedUserPrompt : string) :
  let lorebooks :=
    td_lorebooks (templateDataOf disable host p processedUserPrompt) in
  (forall w l,
      lorebooks !! w = Some l ->
      l <> [] /\
      w ∈ selectedWorldNames (session p) /\
      exists entries,
        entriesGroupByWorldName p !! w = Some entries /\
        forall entry,
          entry ∈ l <-> entry ∈ entries /\ disable entry = false) /\
  (selectedWorldNames (session p) = [] -> lorebooks = ∅).
Proof.
  cbv zeta. cbn [templateDataOf td_lorebooks]. split.
  - intros w l Hl.
    apply lorebooksData_lookup in Hl
      as (_ & entries & Hlook & _ & Hsel & (entry & Hin & Hen) & ->).
    assert (Hmem : forall e,
      e ∈ List.filter (fun entry => negb (disable entry)) entries <->
      e ∈ entries /\ disable e = false).
    { intros e. rewrite !list_elem_of_In, filter_In, negb_true_iff. done. }
    split; [| split; [done | by exists entries]].
    intros Hnil. pose proof (proj2 (Hmem entry) (conj Hin Hen)) as Hin'.
    rewrite Hnil in Hin'. by apply elem_of_nil in Hin'.
  - intros Hnone. apply map_eq. intros w. rewrite lookup_empty.
    apply eq_None_not_Some. intros [l Hl].
    apply lorebooksData_lookup in Hl as (_ & _ & _ & _ & Hsel & _).
    rewrite Hnone in Hsel. by apply elem_of_nil in Hsel.
Qed.

(** X14. The list [characters] of the template context holds only
    characters of [allCharacters], is no longer than the list of selected
    indexes, and keeps repetitions: the indexes of two lists put together
    give the characters of the first followed by those of the second. *)
Theorem characters_come_from_all_characters p (processedUserPrompt : string) :
  let characters :=
    td_characters (templateDataOf disable host p processedUserPrompt) in
  (forall char, char ∈ characters -> char ∈ allCharacters p) /\
  (length characters <= length (selectedCharacterIndexes (session p)))%nat /\
  (forall l1 l2 : list string,
      charactersData (allCharacters p) (l1 ++ l2) =
      charactersData (allCharacters p) l1 ++
      charactersData (allCharacters p) l2).
Proof.
  cbv zeta. cbn [templateDataOf td_characters].
  rewrite charactersData_omap. split; [| split].
  - intros char Hin.
    apply list_elem_of_omap in Hin as (charIndex & _ & Hat).
    unfold characterAt in Hat.
    destruct (Str.parseInt charIndex) as [n|]; [| done].
    destruct (0 <=? n); [| done].
    by apply list_elem_of_lookup_2 in Hat.
  - induction (selectedCharacterIndexes (session p)) as [|i l IH];
      csimpl; [done |].
    destruct (characterAt _ i); csimpl; lia.
  - intros l1 l2. rewrite !charactersData_omap. apply omap_app.
Qed.

(** X15. [parseInt] drops leading white space and ignores what follows the
    digits: an index made of white space, decimal digits and then any text
    that starts with a character other than a digit, [x] and [X] resolves
    to the character at the number the digits denote; when that number is
    at most 2^53, it is exactly what [parseInt] returns. *)
Theorem index_with_trailing_text_resolves allCharacters
  (spaces ds rest : list ascii) (c : ascii) :
  forallb Str.isWhiteSpace spaces = true ->
  Str.isDigits ds = true ->
  Str.isDecimalDigit c = false -> c <> "x"%char -> c <> "X"%char ->
  characterAt allCharacters (Str.of_chars (spaces ++ ds ++ c :: rest)) =
    allCharacters !! Z.to_nat (Str.decimalValue ds) /\
  (Str.decimalValue ds <= 2 ^ 53 ->
   Str.parseInt (Str.of_chars (spaces ++ ds ++ c :: rest)) =
     Some (Str.decimalValue ds)).
Proof.
  intros Hspaces Hds Hc Hx HX.
  assert (Htail : c :: rest = [] \/
    exists c' rest', c :: rest = c' :: rest' /\
      Str.isDecimalDigit c' = false /\ c' <> "x"%char /\ c' <> "X"%char)
    by (right; by exists c, rest).
  split.
  - by apply characterAt_digits_then_text.
  - intros _. unfold Str.parseInt.
    rewrite String.list_ascii_of_string_of_list_ascii.
    by apply parseIntL_digits_then_text.
Qed.

End TemplateContextMore.

(** ** The trimmed user prompt *)

Section Trim.
Import Str.
Implicit Types s pre post : list ascii.

Lemma trimStartL_spec s :
  exists pre,
    s = pre ++ trimStartL s /\ forallb isWhiteSpace pre = true /\
    forall c r, trimStartL s = c :: r -> isWhiteSpace c = false.
Proof.
  induction s as [|c s (pre & Hs & Hpre & Hhead)].
  - exists []. by repeat split.
  - simpl. destruct (isWhiteSpace c) eqn:Hc.
    + exists (c :: pre). simpl. rewrite Hc, Hpre. split; [by f_equal |].
      split; [done |]. exact Hhead.
    + exists []. repeat split. intros c' r [= <- _]. exact Hc.
Qed.

Lemma trimStartL_id s :
  (forall c r, s = c :: r -> isWhiteSpace c = false) -> trimStartL s = s.
Proof.
  destruct s as [|c s]; [done |]. intros H. simpl.
  by rewrite (H c s eq_refl).
Qed.

Lemma forallb_rev (f : ascii -> bool) s :
  forallb f s = true -> forallb f (rev s) = true.
Proof.
  rewrite !forallb_forall. intros H x Hx. apply H. by apply in_rev.
Qed.

(** X16. The user prompt is trimmed before it is substituted: the trimmed
    text is the prompt without a run of white space at its start and at
    its end, it neither starts nor ends with white space, and trimming it
    again changes nothing. *)
Theorem trimmed_prompt_has_no_outer_space (userPrompt : string) :
  let trimmed := chars (Str.trim userPrompt) in
  (exists pre post,
      chars userPrompt = pre ++ trimmed ++ post /\
      forallb isWhiteSpace pre = true /\ forallb isWhiteSpace post = true) /\
  (forall c r, trimmed = c :: r -> isWhiteSpace c = false) /\
  (forall c r, trimmed = r ++ [c] -> isWhiteSpace c = false) /\
  Str.trim (Str.trim userPrompt) = Str.trim userPrompt.
Proof.
  cbv zeta. unfold Str.trim.
  rewrite !String.list_ascii_of_string_of_list_ascii.
  set (s := chars userPrompt). unfold trimL.
  destruct (trimStartL_spec s) as (pre & Hs & Hpre & Hhead).
  destruct (trimStartL_spec (rev (trimStartL s)))
    as (post & Ht & Hpost & Hlast).
  set (t := trimStartL s) in *.
  set (u := trimStartL (rev t)) in *.
  assert (Ht' : t = rev u ++ rev post).
  { rewrite <- rev_app_distr, <- Ht. by rewrite rev_involutive. }
  assert (Hfirst : forall c r, rev u = c :: r -> isWhiteSpace c = false).
  { intros c r Hu. apply (Hhead c (r ++ rev post)).
    by rewrite Ht', Hu. }
  assert (Hend : forall c r, rev u = r ++ [c] -> isWhiteSpace c = false).
  { intros c r Hu. apply (Hlast c (rev r)).
    rewrite <- (rev_involutive u), Hu, rev_app_distr. done. }
  split; [| split; [done | split; [done |]]].
  - exists pre, (rev post). split; [| split; [done | by apply forallb_rev]].
    by rewrite Hs, Ht'.
  - f_equal. fold u.
    rewrite (trimStartL_id (rev u)) by done.
    rewrite rev_involutive. fold u.
    rewrite (trimStartL_id u); [done |]. exact Hlast.
Qed.

End Trim.

(** ** The further properties on the concrete hosts *)

Lemma substituteProtected_is_identity_witness :
  substituteProtected (stubSubstituteParams "Bob" "Alice")
    "Hi {{user}}, I am {{char}}." = "Hi {{user}}, I am {{char}}.".
Proof.
  apply (substituteProtected_is_identity (stubSubstituteParams "Bob" "Alice")
           "Hi {{user}}, I am {{char}}.");
    [intros text; apply stubSubstituteParams_without_tokens
    | reflexivity | reflexivity].
Defined.

Lemma placeholder_text_becomes_token_witness :
  Str.includes "see [[[crec_veryUniqueUserPlaceHolder]]]" "{{user}}" = false /\
  Str.includes
    (substituteProtected (stubSubstituteParams "Bob" "Alice")
       "see [[[crec_veryUniqueUserPlaceHolder]]]") "{{user}}" = true.
Proof.
  split; [reflexivity |].
  apply (placeholder_text_becomes_token "Bob" "Alice"
           "see [[[crec_veryUniqueUserPlaceHolder]]]" userPlaceHolder
           "{{user}}");
    [left; split; reflexivity | reflexivity].
Defined.

Lemma builder_failure_propagates_witness :
  runCharacterFieldGeneration fst More.failingBuilder
    (Example.request "p1" [Example.greeting]) =
    ([CallBuildPrompt "openai" tt], inl (Error "no chat is open")) /\
  sentMessages
    (fst (runCharacterFieldGeneration fst More.failingBuilder
            (Example.request "p1" [Example.greeting]))) = [].
Proof.
  apply (builder_failure_propagates fst More.failingBuilder
           (Example.request "p1" [Example.greeting])
           {| id := "p1"; api := Some "openai"; name := "Main" |} "openai"
           (Error "no chat is open"));
    [discriminate | reflexivity | reflexivity | discriminate | reflexivity].
Defined.

Lemma render_failure_propagates_witness :
  runCharacterFieldGeneration fst More.strictEngine
    (More.request [Example.greeting; More.broken; Example.history]) =
    ([CallBuildPrompt "openai" tt], inl (Error "Parse error")) /\
  sentMessages
    (fst (runCharacterFieldGeneration fst More.strictEngine
            (More.request [Example.greeting; More.broken; Example.history])))
  = [].
Proof.
  apply (render_failure_propagates fst More.strictEngine
           (More.request [Example.greeting; More.broken; Example.history])
           {| id := "p1"; api := Some "openai"; name := "Main" |} "openai"
           Example.baseMessages [Example.greeting] [Example.history]
           More.broken {| prompt_content := "{{#if}}" |}
           [ {| role := "user"; content := "Hi {{user}}, I am {{char}}." |} ]
           (Error "Parse error"));
    [discriminate | reflexivity | reflexivity | discriminate | reflexivity
    | reflexivity | reflexivity | discriminate | reflexivity | reflexivity].
Defined.

Lemma response_is_parsed_witness :
  fst (runCharacterFieldGeneration fst Example.host
         (Example.request "p1" [Example.greeting; Example.history])) =
    [ CallBuildPrompt "openai" tt;
      CallSendRequest "p1"
        [ {| role := "user"; content := "Hi {{user}}, I am {{char}}." |};
          {| role := "system"; content := "You are {{char}}." |};
          {| role := "user"; content := "" |} ] 300 ] /\
  snd (runCharacterFieldGeneration fst Example.host
         (Example.request "p1" [Example.greeting; Example.history])) =
    inr "done" /\
  snd (runCharacterFieldGeneration fst More.refusingService
         (Example.request "p1" [Example.greeting; Example.history])) =
    inl (Error "rate limit").
Proof.
  destruct (response_is_parsed fst Example.host
              (Example.request "p1" [Example.greeting; Example.history])
              {| id := "p1"; api := Some "openai"; name := "Main" |} "openai"
              Example.baseMessages
              [ {| role := "user"; content := "Hi {{user}}, I am {{char}}." |};
                {| role := "system"; content := "You are {{char}}." |};
                {| role := "user"; content := "" |} ])
    as (Htrace & Hvalue & _);
    [discriminate | reflexivity | reflexivity | discriminate | reflexivity
    | reflexivity |].
  destruct (response_is_parsed fst More.refusingService
              (Example.request "p1" [Example.greeting; Example.history])
              {| id := "p1"; api := Some "openai"; name := "Main" |} "openai"
              Example.baseMessages
              [ {| role := "user"; content := "Hi {{user}}, I am {{char}}." |};
                {| role := "system"; content := "You are {{char}}." |};
                {| role := "user"; content := "" |} ])
    as (_ & _ & Herror);
    [discriminate | reflexivity | reflexivity | discriminate | reflexivity
    | reflexivity |].
  split; [exact Htrace | split].
  - apply (Hvalue {| response_content := "done" |}). reflexivity.
  - apply (Herror (Error "rate limit")). reflexivity.
Defined.

Lemma value_comes_from_the_response_witness :
  exists theApi messages response,
    fst (runCharacterFieldGeneration fst Example.host
           (Example.request "p1" [Example.history])) =
      [ CallBuildPrompt theApi tt; CallSendRequest "p1" messages 300 ] /\
    sendRequest Example.host "p1" messages 300 = inr response /\
    parseResponse Example.host (response_content response) none = inr "done".
Proof.
  apply (value_comes_from_the_response fst Example.host
           (Example.request "p1" [Example.history]) "done").
  reflexivity.
Defined.

Lemma empty_message_list_is_sent_witness :
  fst (runCharacterFieldGeneration fst Example.host
         (Example.request "p1" [Example.missing])) =
  [ CallBuildPrompt "openai" tt; CallSendRequest "p1" [] 300 ].
Proof.
  apply (empty_message_list_is_sent fst Example.host
           (Example.request "p1" [Example.missing])
           {| id := "p1"; api := Some "openai"; name := "Main" |} "openai"
           Example.baseMessages);
    [discriminate | reflexivity | reflexivity | discriminate | reflexivity |].
  apply Forall_singleton.
  split; [discriminate | split; [reflexivity | intros Hin; not_listed Hin]].
Defined.

Lemma first_profile_with_the_id_is_used_witness :
  findProfile More.twinHost "p1" =
  Some {| id := "p1"; api := Some "openai"; name := "First" |}.
Proof.
  apply (first_profile_with_the_id_is_used More.twinHost More.twins
           [ {| id := "p0"; api := None; name := "Zero" |} ]
           [ {| id := "p1"; api := Some "mystery"; name := "Second" |} ]
           {| id := "p1"; api := Some "openai"; name := "First" |} "p1");
    [reflexivity | reflexivity | reflexivity |].
  apply Forall_singleton. discriminate.
Defined.

Lemma field_values_are_keyed_by_label_witness :
  core (td_fields Example.data) !! "Description" = Some "" /\
  draft (td_fields Example.data) !! "Mood" = Some "".
Proof.
  split.
  - destruct (field_values_are_keyed_by_label fst Example.host
                (Example.request "p1" []) ""
                (fields Example.theSession) (core (td_fields Example.data)))
      as (_ & _ & Hfound); [left; split; reflexivity |].
    apply (Hfound (fun k1 k2 f1 f2 H1 H2 _ =>
                     eq_trans (eq_sym (proj1 (proj1 (lookup_singleton_Some
                                                       _ _ _ _) H1)))
                              (proj1 (proj1 (lookup_singleton_Some _ _ _ _)
                                        H2)))
             "description"
             {| prompt := Some "fixed text"; value := "";
                label := "Description" |}).
    reflexivity.
  - destruct (field_values_are_keyed_by_label fst Example.host
                (Example.request "p1" []) ""
                (draftFields Example.theSession)
                (draft (td_fields Example.data)))
      as (_ & _ & Hfound); [right; split; reflexivity |].
    apply (Hfound (fun k1 k2 f1 f2 H1 H2 _ =>
                     eq_trans (eq_sym (proj1 (proj1 (lookup_singleton_Some
                                                       _ _ _ _) H1)))
                              (proj1 (proj1 (lookup_singleton_Some _ _ _ _)
                                        H2)))
             "description"
             {| prompt := Some "draft text"; value := ""; label := "Mood" |}).
    reflexivity.
Defined.

Lemma index_with_trailing_text_resolves_witness :
  characterAt ["Ann"; "Ben"] " 1abc" = Some "Ben" /\
  Str.parseInt " 1abc" = Some 1.
Proof.
  destruct (index_with_trailing_text_resolves ["Ann"; "Ben"]
              (Str.chars " ") (Str.chars "1") (Str.chars "bc") "a"%char)
    as [Hat Hparse];
    [reflexivity | reflexivity | reflexivity | discriminate | discriminate |].
  split; [exact Hat |]. apply Hparse. discriminate.
Defined.

Lemma undeterminable_api_error_witness :
  runCharacterFieldGeneration fst Example.host
    (Example.request "p4" [Example.greeting]) =
  ([], inl (Error (noApiMessage "Idle"))).
Proof.
  apply (undeterminable_api_error fst Example.host
           (Example.request "p4" [Example.greeting])
           {| id := "p4"; api := Some "idle"; name := "Idle" |});
    [reflexivity | reflexivity |].
  right. right. exists "idle", {| selected := None |}.
  split; [reflexivity | split; [reflexivity | by left]].
Defined.

Lemma unknown_api_type_error_witness :
  CONNECT_API_MAP Example.host !! "mystery" = None /\
  runCharacterFieldGeneration fst Example.host
    (Example.request "p2" [Example.history]) =
  ([], inl (TypeError "selected")).
Proof.
  split; [reflexivity |].
  apply (unknown_api_type_error fst Example.host
           (Example.request "p2" [Example.history])
           {| id := "p2"; api := Some "mystery"; name := "Odd" |} "mystery");
    [reflexivity | reflexivity | reflexivity | discriminate | reflexivity
    | intros Hin; not_listed Hin].
Defined.

Lemma inherited_api_error_witness :
  CONNECT_API_MAP More.methodHost !! "constructor" = None /\
  runCharacterFieldGeneration fst More.methodHost
    (Example.request "p5" [Example.history]) =
  ([], inl (Error (noApiMessage "Method"))).
Proof.
  split; [reflexivity |].
  apply (inherited_api_error fst More.methodHost
           (Example.request "p5" [Example.history])
           {| id := "p5"; api := Some "constructor"; name := "Method" |}
           "constructor");
    [reflexivity | reflexivity | reflexivity | reflexivity | by left].
Defined.

Lemma mainContextStep_inherited_witness :
  mainContextStep Example.host Example.data Example.baseMessages
    Example.prompts
    [ {| role := "user"; content := "Hi {{user}}, I am {{char}}." |} ]
    {| promptName := "valueOf"; mc_role := "user" |} =
  inl (compileUndefined Example.host).
Proof.
  apply (mainContextStep_inherited Example.host Example.data
           Example.baseMessages Example.prompts
           [ {| role := "user"; content := "Hi {{user}}, I am {{char}}." |} ]
           {| promptName := "valueOf"; mc_role := "user" |});
    [discriminate | reflexivity |].
  do 6 right. by left.
Defined.
